(** * Ride matching and offline caching of find-your-ride-partner

    A shallow embedding of the ride list component (match filter, proximity
    sort, localStorage cache with a 15 minute lifetime) and of the service
    worker's fetch handler, with the properties proved about them. *)

From Stdlib Require Import ZArith QArith String Ascii List Lia Bool.
From Stdlib Require Import Sorting.Sorted Sorting.Permutation.
From Stdlib Require DecimalString DecimalZ.
From stdpp Require Import base option list strings gmap.

Set Warnings "-register-all".
Local Open Scope string_scope.
Local Open Scope Z_scope.

(** ** JavaScript values

    JSON values are what the backend returns and what the cache stores. *)

Inductive json : Type :=
| JNull
| JBool (b : bool)
| JNumber (n : Z)
| JString (s : string)
| JArray (items : list json)
| JObject (fields : list (string * json)).

(** A property read from a row: the columns [from], [to] and [time] are text
    and timestamp columns, so a read gives a string, [null], or [undefined]
    when the property is absent. *)
Inductive value : Type :=
| VUndefined
| VNull
| VString (s : string).

Inductive exn : Type :=
| TypeError
| SyntaxError
| QuotaExceededError
| NetworkError.

(** Completion of a computation that may throw. *)
Inductive result (A : Type) : Type :=
| Ok (a : A)
| Throw (e : exn).
Arguments Ok {A} a.
Arguments Throw {A} e.

#[global] Instance result_bind : MBind result :=
  fun A B (k : A -> result B) (r : result A) =>
    match r with
    | Ok a => k a
    | Throw e => Throw e
    end.

(** What a cache keeps of a stored response. *)
Record Stored : Type := mkStored { stored_status : Z; stored_body : string }.

(** ** Host built-ins

    What the browser provides and the repository only calls. [Date_parse]
    gives the time value in milliseconds, [None] standing for NaN (an Invalid
    Date); [LocalTZA] is the offset of the local time zone at a time value.
    [StringToNumber] is [Number] on a string: the stored time stamps are
    integers, and [None] stands for NaN. [JSON_parse] gives [None] where
    [JSON.parse] throws a SyntaxError. *)
Class Host : Type := {
  Date_parse : string -> option Z;
  LocalTZA : Z -> Z;
  toLowerCase : string -> string;
  StringToNumber : string -> option Z;
  NumberToString : Z -> string;
  JSON_parse : string -> option json;
  JSON_stringify : json -> string;
  (** whether [localStorage.setItem] of a key and value succeeds on the
      given content or throws (quota exceeded, storage disabled) *)
  setItem_accepts : gmap string string -> string -> string -> bool;
  (** whether the cache storage, holding the given caches, refuses to write
      the given entries, and with what exception: a response that carries
      [Vary: *] (a TypeError) or an exhausted quota; it also stands for a
      write that is not awaited and has not taken effect when the next event
      is handled. [None] is a write that takes effect. *)
  cache_refuses : list (string * gmap string Stored) -> list (string * Stored) -> option exn;
  (** [self.location.origin] of the service worker *)
  origin : string
}.

(** ** Date arithmetic (ECMAScript, Time Values and Time Range) *)

Definition msPerDay : Z := 86400000.

Definition Day (t : Z) : Z := t / msPerDay.

Definition DayFromYear (y : Z) : Z :=
  365 * (y - 1970) + (y - 1969) / 4 - (y - 1901) / 100 + (y - 1601) / 400.

Definition leap (y : Z) : bool :=
  ((y mod 4 =? 0) && negb (y mod 100 =? 0)) || (y mod 400 =? 0).

Definition InLeapYear (y : Z) : Z := if leap y then 1 else 0.

(** The year of a day number, computed from the 400 year cycle that starts
    on 1 March of year 0. *)
Definition YearFromDay (d : Z) : Z :=
  let z := d + 719468 in
  let era := z / 146097 in
  let doe := z - era * 146097 in
  let yoe := (doe - doe / 1460 + doe / 36524 - doe / 146096) / 365 in
  let doy := doe - (365 * yoe + yoe / 4 - yoe / 100) in
  if doy <? 306 then yoe + era * 400 else yoe + era * 400 + 1.

(** A check on [n] consecutive integers from [d] on. *)
Fixpoint all_from (n : nat) (d : Z) (f : Z -> bool) : bool :=
  match n with
  | O => true
  | S n' => f d && all_from n' (d + 1) f
  end.

Definition DayWithinYear (d : Z) : Z := d - DayFromYear (YearFromDay d).

Definition MonthFromDay (d : Z) : Z :=
  let w := DayWithinYear d in
  let L := InLeapYear (YearFromDay d) in
  if w <? 31 then 0
  else if w <? 59 + L then 1
  else if w <? 90 + L then 2
  else if w <? 120 + L then 3
  else if w <? 151 + L then 4
  else if w <? 181 + L then 5
  else if w <? 212 + L then 6
  else if w <? 243 + L then 7
  else if w <? 273 + L then 8
  else if w <? 304 + L then 9
  else if w <? 334 + L then 10
  else 11.

Definition monthStart (m L : Z) : Z :=
  if m =? 0 then 0
  else if m =? 1 then 31
  else if m =? 2 then 59 + L
  else if m =? 3 then 90 + L
  else if m =? 4 then 120 + L
  else if m =? 5 then 151 + L
  else if m =? 6 then 181 + L
  else if m =? 7 then 212 + L
  else if m =? 8 then 243 + L
  else if m =? 9 then 273 + L
  else if m =? 10 then 304 + L
  else 334 + L.

Definition DateFromDay (d : Z) : Z :=
  DayWithinYear d - monthStart (MonthFromDay d) (InLeapYear (YearFromDay d)) + 1.

(** A row of the rides table as the component uses it; [id] stands for the
    columns the match engine does not read. *)
Record Ride : Type := mkRide {
  id : Z;
  from : value;
  to : value;
  time : value
}.

Section WithHost.
Context `{Host}.

Definition LocalTime (t : Z) : Z := t + LocalTZA t.

(** [new Date(v)]: the time value of the Date object, [None] when it is NaN.
    [new Date(null)] is the epoch, [new Date(undefined)] is invalid. *)
Definition newDate (v : value) : option Z :=
  match v with
  | VUndefined => None
  | VNull => Some 0
  | VString s => Date_parse s
  end.

(** [getFullYear()], [getMonth()], [getDate()]: NaN on an Invalid Date. *)
Definition getFullYear (d : option Z) : option Z :=
  match d with Some t => Some (YearFromDay (Day (LocalTime t))) | None => None end.

Definition getMonth (d : option Z) : option Z :=
  match d with Some t => Some (MonthFromDay (Day (LocalTime t))) | None => None end.

Definition getDate (d : option Z) : option Z :=
  match d with Some t => Some (DateFromDay (Day (LocalTime t))) | None => None end.

(** [===] on numbers: NaN is not equal to anything, itself included. *)
Definition strict_eq (a b : option Z) : bool :=
  match a, b with
  | Some x, Some y => x =? y
  | _, _ => false
  end.

(** ** The match engine (RideList) *)

Definition CACHE_EXPIRATION : Z := 15 * 60 * 1000.

(** [Math.abs(t1 - t2) / (1000 * 60) <= rangeInMinutes]. The quotient is kept
    as a rational: rounding to a double is monotone and keeps the integer
    bound, so the comparison is the same. A NaN operand makes [<=] false. *)
Definition isTimeWithinRange (time1 time2 : value) (rangeInMinutes : Z) : bool :=
  let t1 := newDate time1 in
  let t2 := newDate time2 in
  match t1, t2 with
  | Some a, Some b =>
      let diffInMinutes := Qmake (Z.abs (a - b)) (Z.to_pos (1000 * 60)) in
      Qle_bool diffInMinutes (inject_Z rangeInMinutes)
  | _, _ => false
  end.

Definition isSameDay (date1 date2 : value) : bool :=
  let d1 := newDate date1 in
  let d2 := newDate date2 in
  strict_eq (getFullYear d1) (getFullYear d2) &&
  strict_eq (getMonth d1) (getMonth d2) &&
  strict_eq (getDate d1) (getDate d2).

(** [v.toLowerCase()]: a TypeError unless [v] is a string. *)
Definition call_toLowerCase (v : value) : result string :=
  match v with
  | VString s => Ok (toLowerCase s)
  | VUndefined | VNull => Throw TypeError
  end.

(** The callback given to [some]: the route comparison short-circuits on
    [&&]; both date checks are evaluated before the final conjunction. *)
Definition matchCallback (ride myRide : Ride) : result bool :=
  a ← call_toLowerCase (from myRide);
  b ← call_toLowerCase (from ride);
  routeMatches ←
    (if String.eqb a b
     then (c ← call_toLowerCase (to myRide);
           d ← call_toLowerCase (to ride);
           Ok (String.eqb c d))
     else Ok false);
  let sameDay := isSameDay (time myRide) (time ride) in
  let timeMatches := isTimeWithinRange (time myRide) (time ride) 30 in
  Ok (routeMatches && sameDay && timeMatches).

(** [Array.prototype.some]: stops at the first element the callback accepts;
    an exception of the callback ends the iteration. *)
Fixpoint Array_some {A : Type} (f : A -> result bool) (l : list A) : result bool :=
  match l with
  | [] => Ok false
  | x :: l' =>
      b ← f x;
      if b : bool then Ok true else Array_some f l'
  end.

(** [Array.prototype.filter], elements visited in index order. *)
Fixpoint Array_filter {A : Type} (f : A -> result bool) (l : list A)
  : result (list A) :=
  match l with
  | [] => Ok []
  | x :: l' =>
      b ← f x;
      rest ← Array_filter f l';
      Ok (if b : bool then x :: rest else rest)
  end.

Definition matchedRides (myRides rides : list Ride) : result (list Ride) :=
  Array_filter (fun ride => Array_some (matchCallback ride) myRides) rides.

(** The comparator of the proximity sort. [new Date()] is read twice in each
    call, first for [a] and then for [b]; [now1] and [now2] are those two
    readings. The difference is NaN ([None]) when a ride has an invalid time. *)
Definition compareFn (now1 now2 : Z) (a b : Ride) : option Z :=
  match newDate (time a) with
  | Some ta =>
      match newDate (time b) with
      | Some tb => Some (Z.abs (ta - now1) - Z.abs (tb - now2))
      | None => None
      end
  | None => None
  end.

(** SortCompare of [Array.prototype.sort]: a NaN from the comparator counts
    as +0. [clock] gives the successive readings of [new Date()] and [k] is
    the number of comparator calls made so far. *)
Definition SortCompare (clock : nat -> Z) (k : nat) (x y : Ride) : Z :=
  match compareFn (clock (2 * k)%nat) (clock (2 * k + 1)%nat) x y with
  | Some v => v
  | None => 0
  end.

End WithHost.

(** ** Array.prototype.sort

    The engine's algorithm is not fixed by the language, only that the sort
    is stable. It is modelled as an insertion sort that builds the result from
    the right: an element moves past the elements it compares greater than and
    stops at the first one it does not. The counter numbers the calls of the
    comparator. *)
Section ArraySort.
Context {A : Type}.
Variable comparefn : nat -> A -> A -> Z.

Fixpoint sort_insert (k : nat) (x : A) (l : list A) : list A * nat :=
  match l with
  | [] => ([x], k)
  | y :: l' =>
      if comparefn k x y <=? 0 then (x :: y :: l', S k)
      else let (r, k') := sort_insert (S k) x l' in (y :: r, k')
  end.

Fixpoint Array_sort (k : nat) (l : list A) : list A * nat :=
  match l with
  | [] => ([], k)
  | x :: l' => let (s, k') := Array_sort k l' in sort_insert k' x s
  end.

End ArraySort.

Section MatchEngine.
Context `{Host}.

Definition sortedRides (clock : nat -> Z) (matched : list Ride) : list Ride :=
  fst (Array_sort (SortCompare clock) 0%nat matched).

(** The match engine as a whole: the filter, then the sort. *)
Definition matchRides (myRides rides : list Ride) (clock : nat -> Z)
  : result (list Ride) :=
  matched ← matchedRides myRides rides;
  Ok (sortedRides clock matched).

(** Distance of a ride to an instant, the sort key of the specification. *)
Definition distance (now : Z) (r : Ride) : Z :=
  match newDate (time r) with
  | Some t => Z.abs (t - now)
  | None => 0
  end.

End MatchEngine.

(** ** The data cache (localStorage) *)

Module CACHE_KEYS.
Definition RIDES : string := "cached_rides".
Definition LAST_FETCH : string := "last_fetch_time".
Definition PROFILE : string := "cached_profile".
End CACHE_KEYS.

(** ToBoolean. *)
Definition truthy (v : json) : bool :=
  match v with
  | JNull => false
  | JBool b => b
  | JNumber n => negb (n =? 0)
  | JString s => negb (String.eqb s "")
  | JArray _ | JObject _ => true
  end.

Fixpoint assoc (k : string) (fields : list (string * json)) : option json :=
  match fields with
  | [] => None
  | (k', v) :: rest => if String.eqb k k' then Some v else assoc k rest
  end.

(** [v.k] on a value that is not null; [undefined] reads as [JNull] where
    only its truthiness is used. *)
Definition get_prop (k : string) (v : json) : json :=
  match v with
  | JObject fields => default JNull (assoc k fields)
  | _ => JNull
  end.

Definition value_field (k : string) (v : value) : list (string * json) :=
  match v with
  | VUndefined => []
  | VNull => [(k, JNull)]
  | VString s => [(k, JString s)]
  end.

(** The row as a JSON object; an absent property is left out. *)
Definition Ride_to_json (r : Ride) : json :=
  JObject ([("id", JNumber (id r))] ++ value_field "from" (from r)
           ++ value_field "to" (to r) ++ value_field "time" (time r)).

Definition rides_to_json (l : list Ride) : json :=
  JArray (map Ride_to_json l).

(** Effects observable from outside the component, in program order. *)
Inductive query : Type := QProfile | QMyRides | QRides.

Inductive event : Type :=
| SetItem (key val : string)
| SetItemFailed (key : string)
| Query (q : query).

(** The browser state the component works on: localStorage, the React state
    [rides] and [loading], and the effects performed so far. *)
Record World : Type := mkWorld {
  localStorage : gmap string string;
  rides_state : json;
  loading : bool;
  trace : list event
}.

Definition with_storage (st : gmap string string) (w : World) : World :=
  mkWorld st (rides_state w) (loading w) (trace w).
Definition with_rides (j : json) (w : World) : World :=
  mkWorld (localStorage w) j (loading w) (trace w).
Definition with_loading (b : bool) (w : World) : World :=
  mkWorld (localStorage w) (rides_state w) b (trace w).
Definition log (e : event) (w : World) : World :=
  mkWorld (localStorage w) (rides_state w) (loading w) (trace w ++ [e]).

(** Computations on the world that may throw. *)
Definition Eff (A : Type) : Type := World -> World * result A.

#[global] Instance Eff_ret : MRet Eff := fun A (a : A) w => (w, Ok a).
#[global] Instance Eff_bind : MBind Eff :=
  fun A B (k : A -> Eff B) (m : Eff A) w =>
    match m w with
    | (w', Ok a) => k a w'
    | (w', Throw e) => (w', Throw e)
    end.

Definition lift {A : Type} (r : result A) : Eff A := fun w => (w, r).
Definition modify (f : World -> World) : Eff unit := fun w => (f w, Ok tt).
Definition read {A : Type} (f : World -> A) : Eff A := fun w => (w, Ok (f w)).

(** [try { body } catch (e) { handler }] *)
Definition try_catch {A : Type} (body : Eff A) (handler : exn -> Eff A) : Eff A :=
  fun w =>
    match body w with
    | (w', Ok a) => (w', Ok a)
    | (w', Throw e) => handler e w'
    end.

(** [try { body } finally { fin }] *)
Definition try_finally {A : Type} (body : Eff A) (fin : Eff unit) : Eff A :=
  fun w =>
    match body w with
    | (w', r) =>
        match fin w' with
        | (w'', Ok _) => (w'', r)
        | (w'', Throw e) => (w'', Throw e)
        end
    end.

Record Cached : Type := mkCached { rides : json; profile : json }.

Section DataCache.
Context `{Host}.
Import CACHE_KEYS.

(** [localStorage.setItem]: stores the value or throws and stores nothing. *)
Definition setItem (key val : string) : Eff unit :=
  fun w =>
    if setItem_accepts (localStorage w) key val
    then (log (SetItem key val) (with_storage (<[key := val]> (localStorage w)) w), Ok tt)
    else (log (SetItemFailed key) w, Throw QuotaExceededError).

(** The value of [lastFetchTime && Date.now() - Number(lastFetchTime) <
    CACHE_EXPIRATION]: [null] or the empty string when the left operand is
    falsy, the comparison otherwise (false on NaN). *)
Definition isCacheValid (st : gmap string string) (now : Z) : json :=
  match st !! LAST_FETCH with
  | None => JNull
  | Some lastFetchTime =>
      if truthy (JString lastFetchTime)
      then JBool match StringToNumber lastFetchTime with
                 | Some n => now - n <? CACHE_EXPIRATION
                 | None => false
                 end
      else JString lastFetchTime
  end.

(** [JSON.parse(localStorage.getItem(key))]: a missing item is [null], which
    is converted to the text null before parsing. *)
Definition parse_item (st : gmap string string) (key : string) : result json :=
  let text := match st !! key with Some s => s | None => "null" end in
  match JSON_parse text with
  | Some j => Ok j
  | None => Throw SyntaxError
  end.

Definition getCachedData (st : gmap string string) : Cached :=
  match (cachedRides ← parse_item st RIDES;
         cachedProfile ← parse_item st PROFILE;
         Ok (mkCached cachedRides cachedProfile)) with
  | Ok c => c
  | Throw _ => mkCached JNull JNull
  end.

(** [now] is the reading of [Date.now()] made for the third write. *)
Definition setCacheData (rides profile : json) (now : Z) : Eff unit :=
  try_catch
    (setItem RIDES (JSON_stringify rides);;
     setItem PROFILE (JSON_stringify profile);;
     setItem LAST_FETCH (NumberToString now))
    (fun _ => mret tt).

(** The removal of the three keys by the refresh button. *)
Definition clearCache (st : gmap string string) : gmap string string :=
  delete PROFILE (delete RIDES (delete LAST_FETCH st)).

End DataCache.

(** ** The refresh of the ride list ([fetchData]) *)

(** What an awaited backend query gives: [data] ([None] for null) and whether
    [error] is set. *)
Record Reply (A : Type) : Type := mkReply { data : A; error : bool }.
Arguments mkReply {A} data error.
Arguments data {A} r.
Arguments error {A} r.

(** The answers of the backend to the three queries; [None] is a rejected
    promise, which throws at the [await]. *)
Record Backend : Type := mkBackend {
  profileReply : option (Reply json);
  myRidesReply : option (Reply (option (list Ride)));
  ridesReply : option (Reply (option (list Ride)))
}.

(** The readings of the clock made during one refresh. *)
Record Clock : Type := mkClock {
  atCheck : Z;
  atSort : nat -> Z;
  atWrite : Z
}.

Section FetchData.
Context `{Host}.

Definition setRides (j : json) : Eff unit := modify (with_rides j).
Definition setLoading (b : bool) : Eff unit := modify (with_loading b).

Definition await {A : Type} (q : query) (reply : option A) : Eff A :=
  fun w =>
    match reply with
    | Some r => (log (Query q) w, Ok r)
    | None => (log (Query q) w, Throw NetworkError)
    end.

(** The cache gate at the start of the refresh; the result tells whether the
    function returned from inside it. *)
Definition serveFromCache (c : Clock) : Eff bool :=
  st ← read localStorage;
  if truthy (isCacheValid st (atCheck c)) then
    let cached := getCachedData st in
    if truthy (rides cached) && truthy (profile cached) then
      setRides (rides cached);;
      setLoading false;;
      mret true
    else mret false
  else mret false.

Definition fetchFromNetwork (b : Backend) (c : Clock) : Eff unit :=
  p ← await QProfile (profileReply b);
  if error p || negb (truthy (data p)) then mret tt
  else if truthy (get_prop "gender" (data p)) then
    mine ← await QMyRides (myRidesReply b);
    others ← await QRides (ridesReply b);
    if error others then mret tt
    else
      matched ← lift (matchedRides (default [] (data mine)) (default [] (data others)));
      let sorted := sortedRides (atSort c) matched in
      setCacheData (rides_to_json sorted) (data p) (atWrite c);;
      setRides (rides_to_json sorted)
  else mret tt.

(** The catch branch: log, then fall back to whatever rides the cache holds. *)
Definition onError (e : exn) : Eff unit :=
  st ← read localStorage;
  let cachedRides := rides (getCachedData st) in
  if truthy cachedRides then setRides cachedRides else mret tt.

(** The body of the [try] block. *)
Definition tryBlock (b : Backend) (c : Clock) : Eff unit :=
  setLoading true;;
  served ← serveFromCache c;
  if served : bool then mret tt else fetchFromNetwork b c.

Definition fetchData (b : Backend) (c : Clock) : Eff unit :=
  try_finally (try_catch (tryBlock b c) onError) (setLoading false).

End FetchData.

(** ** The service worker's fetch handler *)

Definition CACHE_NAME : string := "ride-partner-v2".

Record Request : Type := mkRequest {
  url : string;
  method : string;
  mode : string
}.

(** A body is a stream that can be read once: reading it, or storing the
    response in a cache, leaves it disturbed. A Response object refers to
    its stream by position in the worker's table of streams. *)
Record Stream : Type := mkStream { content : string; disturbed : bool }.

Record Response : Type := mkResponse { status : Z; stream : nat }.

(** The caches of the origin in creation order, each keyed by request URL,
    and the body streams that exist. *)
Record Worker : Type := mkWorker {
  caches : list (string * gmap string Stored);
  streams : list Stream
}.

(** How the promise given to [respondWith] settles; [Fulfilled None] is a
    promise fulfilled with [undefined] or [null], no response. *)
Inductive Settled : Type :=
| Fulfilled (r : option Response)
| Rejected (e : exn).

Inductive Handling : Type :=
| NotHandled
| RespondWith (p : Settled).

Definition startsWith (s p : string) : bool := String.prefix p s.

Definition includes (s sub : string) : bool :=
  match String.index 0 sub s with
  | Some _ => true
  | None => false
  end.

(** A new Response object over a fresh stream. *)
Definition newResponse (st : Z) (body : string) (w : Worker) : Response * Worker :=
  (mkResponse st (length (streams w)),
   mkWorker (caches w) (streams w ++ [mkStream body false])).

(** [response.clone()]: a TypeError when the body is already disturbed,
    otherwise a second Response over a stream of its own. *)
Definition clone (r : Response) (w : Worker) : result Response * Worker :=
  match streams w !! stream r with
  | Some (mkStream body false) =>
      let (r', w') := newResponse (status r) body w in (Ok r', w')
  | _ => (Throw TypeError, w)
  end.

(** Reading a body to its end, as the page does with the response it gets
    and as [cache.put] does with the response it stores. *)
Definition consume (r : Response) (w : Worker) : result string * Worker :=
  match streams w !! stream r with
  | Some (mkStream body false) =>
      (Ok body, mkWorker (caches w) (<[stream r := mkStream body true]> (streams w)))
  | _ => (Throw TypeError, w)
  end.

Fixpoint lookup_cache (name : string) (cs : list (string * gmap string Stored))
  : option (gmap string Stored) :=
  match cs with
  | [] => None
  | (n, c) :: rest => if String.eqb n name then Some c else lookup_cache name rest
  end.

Fixpoint update_cache (name : string) (c : gmap string Stored)
  (cs : list (string * gmap string Stored)) : list (string * gmap string Stored) :=
  match cs with
  | [] => [(name, c)]
  | (n, c') :: rest =>
      if String.eqb n name then (n, c) :: rest else (n, c') :: update_cache name c rest
  end.

(** [caches.open(name)] creates the cache when it does not exist. *)
Definition caches_open (name : string) (w : Worker) : Worker :=
  match lookup_cache name (caches w) with
  | Some _ => w
  | None => mkWorker (caches w ++ [(name, ∅)]) (streams w)
  end.

(** [cache.put(request, response)] on the cache called [name]: the body is
    read and, unless the storage refuses the write, the entry for the request
    URL is replaced. (A refusal for [Vary: *] comes before the body is read;
    the stream is the clone's own and nobody else reads it.) *)
Definition cache_put `{Host} (name : string) (request : Request) (r : Response)
    (w : Worker) : result unit * Worker :=
  match consume r w with
  | (Ok body, w') =>
      match cache_refuses (caches w') [(url request, mkStored (status r) body)] with
      | None =>
          let c := default ∅ (lookup_cache name (caches w')) in
          (Ok tt,
           mkWorker
             (update_cache name (<[url request := mkStored (status r) body]> c) (caches w'))
             (streams w'))
      | Some e => (Throw e, w')
      end
  | (Throw e, w') => (Throw e, w')
  end.

(** The entry some cache holds for a request: only GET requests match, and
    the first cache with an entry for the URL answers. *)
Fixpoint find_entry (u : string) (cs : list (string * gmap string Stored))
  : option Stored :=
  match cs with
  | [] => None
  | (_, c) :: rest =>
      match c !! u with
      | Some e => Some e
      | None => find_entry u rest
      end
  end.

Definition stored_match (request : Request) (w : Worker) : option Stored :=
  if String.eqb (method request) "GET" then find_entry (url request) (caches w)
  else None.

(** [caches.match(request)]: a new Response object for the entry found. *)
Definition caches_match (request : Request) (w : Worker) : option Response * Worker :=
  match stored_match request w with
  | Some e =>
      let (r, w') := newResponse (stored_status e) (stored_body e) w in (Some r, w')
  | None => (None, w)
  end.

(** The entry the cache called [name] holds for a URL. *)
Definition entry (name u : string) (w : Worker) : option Stored :=
  c ← lookup_cache name (caches w); c !! u.

Definition answer (e : Stored) : Z * string := (stored_status e, stored_body e).

Section ServiceWorker.
Context `{Host}.

(** The request [caches.match] builds from the string ["/index.html"]. *)
Definition indexRequest : Request :=
  mkRequest (origin ++ "/index.html") "GET" "cors".

(** The callback of [then] in the network-first branch. The source starts
    the write to the cache without awaiting it; here the write has completed
    when the next event is handled, and its outcome does not reach the
    response. *)
Definition onResponse (request : Request) (response : Response) (w : Worker)
  : result Response * Worker :=
  match clone response w with
  | (Ok responseToCache, w1) =>
      let w2 := caches_open CACHE_NAME w1 in
      let w3 :=
        if String.eqb (method request) "GET" && (status response =? 200)
        then snd (cache_put CACHE_NAME request responseToCache w2)
        else w2 in
      (Ok response, w3)
  | (Throw e, w1) => (Throw e, w1)
  end.

(** The callback of [catch] in the network-first branch. *)
Definition onFailure (request : Request) (w : Worker) : option Response * Worker :=
  match caches_match request w with
  | (Some response, w') => (Some response, w')
  | (None, w') =>
      if String.eqb (mode request) "navigate" then caches_match indexRequest w'
      else (None, w')
  end.

(** The fetch event. [network] is the outcome of [fetch(event.request)]:
    the status and body received, or [None] when the promise rejects. *)
Definition onFetch (request : Request) (network : option (Z * string)) (w : Worker)
  : Handling * Worker :=
  if negb (startsWith (url request) origin) then (NotHandled, w)
  else if includes (url request) "/api/" then
    match network with
    | Some (st, body) =>
        let (response, w') := newResponse st body w in
        (RespondWith (Fulfilled (Some response)), w')
    | None =>
        let (r, w') := caches_match request w in
        (RespondWith (Fulfilled r), w')
    end
  else
    match network with
    | Some (st, body) =>
        let (response, w1) := newResponse st body w in
        match onResponse request response w1 with
        | (Ok r, w2) => (RespondWith (Fulfilled (Some r)), w2)
        | (Throw _, w2) =>
            let (r, w3) := onFailure request w2 in
            (RespondWith (Fulfilled r), w3)
        end
    | None =>
        let (r, w') := onFailure request w in
        (RespondWith (Fulfilled r), w')
    end.

(** What the page receives for a handled request: the status and the body it
    reads from the response, when there is a response. *)
Definition delivered (h : Handling * Worker) : option (Z * string) :=
  match h with
  | (RespondWith (Fulfilled (Some r)), w) =>
      match consume r w with
      | (Ok body, _) => Some (status r, body)
      | (Throw _, _) => None
      end
  | _ => None
  end.

End ServiceWorker.

(** ** A concrete host

    An instance of the built-ins to run the model on: ASCII lower-casing,
    timestamps of the form YYYY-MM-DDTHH:MM:SSZ, decimal integers, a JSON
    printer and reader for values without escapes or white space, a storage
    quota counted in characters, and a fixed zone offset. *)
Module TestHost.

Definition lower_ascii (c : ascii) : ascii :=
  let n := nat_of_ascii c in
  if ((65 <=? n) && (n <=? 90))%nat then ascii_of_nat (n + 32) else c.

Fixpoint lower (s : string) : string :=
  match s with
  | EmptyString => EmptyString
  | String c s' => String (lower_ascii c) (lower s')
  end.

Definition digit (c : ascii) : option Z :=
  let n := nat_of_ascii c in
  if ((48 <=? n) && (n <=? 57))%nat then Some (Z.of_nat (n - 48)) else None.

Fixpoint digits (acc : Z) (l : list ascii) : option Z :=
  match l with
  | [] => Some acc
  | c :: l' =>
      match digit c with
      | Some d => digits (10 * acc + d) l'
      | None => None
      end
  end.

Definition DaysInMonth (y m : Z) : Z :=
  monthStart m (InLeapYear y) - monthStart (m - 1) (InLeapYear y).

(** Timestamps YYYY-MM-DDTHH:MM:SSZ with every field in range; everything
    else is an Invalid Date. *)
Definition parse_iso (s : string) : option Z :=
  match list_ascii_of_string s with
  | [y1; y2; y3; y4; "-"; m1; m2; "-"; d1; d2; "T"; h1; h2; ":"; n1; n2; ":"; s1; s2; "Z"]%char =>
      y ← digits 0 [y1; y2; y3; y4];
      m ← digits 0 [m1; m2];
      d ← digits 0 [d1; d2];
      h ← digits 0 [h1; h2];
      n ← digits 0 [n1; n2];
      sec ← digits 0 [s1; s2];
      if (1 <=? m) && (m <=? 12) && (1 <=? d) &&
         (d <=? (if m =? 12 then 31 else DaysInMonth y m)) &&
         (h <=? 23) && (n <=? 59) && (sec <=? 59)
      then Some ((DayFromYear y + monthStart (m - 1) (InLeapYear y) + (d - 1)) * msPerDay
                 + h * 3600000 + n * 60000 + sec * 1000)
      else None
  | _ => None
  end.

Definition number_to_string (n : Z) : string :=
  DecimalString.NilZero.string_of_int (Z.to_int n).

Definition string_to_number (s : string) : option Z :=
  match s with
  | EmptyString => Some 0
  | _ => Z.of_int <$> DecimalString.NilZero.int_of_string s
  end.

Definition quote : string := String "034"%char EmptyString.

Fixpoint join (sep : string) (l : list string) : string :=
  match l with
  | [] => ""
  | [x] => x
  | x :: l' => x ++ sep ++ join sep l'
  end.

Fixpoint stringify (v : json) : string :=
  match v with
  | JNull => "null"
  | JBool true => "true"
  | JBool false => "false"
  | JNumber n => number_to_string n
  | JString s => quote ++ s ++ quote
  | JArray items => "[" ++ join "," (map stringify items) ++ "]"
  | JObject fields =>
      "{" ++ join "," (map (fun kv => quote ++ fst kv ++ quote ++ ":" ++ stringify (snd kv))
                           fields) ++ "}"
  end.

(** The characters up to the next quotation mark, and what follows it. *)
Fixpoint until_quote (l : list ascii) : option (string * list ascii) :=
  match l with
  | [] => None
  | c :: l' =>
      if Ascii.eqb c "034" then Some (EmptyString, l')
      else '(s, rest) ← until_quote l'; Some (String c s, rest)
  end.

Fixpoint span_digits (l : list ascii) : list ascii * list ascii :=
  match l with
  | c :: l' =>
      match digit c with
      | Some _ => let (ds, rest) := span_digits l' in (c :: ds, rest)
      | None => ([], l)
      end
  | [] => ([], [])
  end.

Definition parse_number (l : list ascii) : option (json * list ascii) :=
  let (neg, l1) := match l with "-"%char :: l' => (true, l') | _ => (false, l) end in
  match span_digits l1 with
  | ([], _) => None
  | (ds, rest) => n ← digits 0 ds; Some (JNumber (if neg then - n else n), rest)
  end.

(** Recursive descent; [fuel] bounds the nesting and the number of items. *)
Fixpoint parse_value (fuel : nat) (l : list ascii) : option (json * list ascii) :=
  match fuel with
  | O => None
  | S fuel' =>
      match l with
      | "n" :: "u" :: "l" :: "l" :: rest => Some (JNull, rest)
      | "t" :: "r" :: "u" :: "e" :: rest => Some (JBool true, rest)
      | "f" :: "a" :: "l" :: "s" :: "e" :: rest => Some (JBool false, rest)
      | "034" :: rest => '(s, rest') ← until_quote rest; Some (JString s, rest')
      | "[" :: "]" :: rest => Some (JArray [], rest)
      | "[" :: rest => '(items, rest') ← parse_items fuel' rest; Some (JArray items, rest')
      | "{" :: "}" :: rest => Some (JObject [], rest)
      | "{" :: rest => '(fields, rest') ← parse_fields fuel' rest; Some (JObject fields, rest')
      | _ => parse_number l
      end%char
  end
with parse_items (fuel : nat) (l : list ascii) : option (list json * list ascii) :=
  match fuel with
  | O => None
  | S fuel' =>
      '(v, rest) ← parse_value fuel' l;
      match rest with
      | "]" :: rest' => Some ([v], rest')
      | "," :: rest' => '(vs, rest'') ← parse_items fuel' rest'; Some (v :: vs, rest'')
      | _ => None
      end%char
  end
with parse_fields (fuel : nat) (l : list ascii)
  : option (list (string * json) * list ascii) :=
  match fuel with
  | O => None
  | S fuel' =>
      match l with
      | "034" :: l1 =>
          '(k, l2) ← until_quote l1;
          match l2 with
          | ":" :: l3 =>
              '(v, rest) ← parse_value fuel' l3;
              match rest with
              | "}" :: rest' => Some ([(k, v)], rest')
              | "," :: rest' =>
                  '(kvs, rest'') ← parse_fields fuel' rest'; Some ((k, v) :: kvs, rest'')
              | _ => None
              end
          | _ => None
          end
      | _ => None
      end%char
  end.

Definition parse (s : string) : option json :=
  let l := list_ascii_of_string s in
  match parse_value (S (length l)) l with
  | Some (v, []) => Some v
  | _ => None
  end.

Definition content_size (st : gmap string string) : nat :=
  map_fold (fun k v n => (String.length k + String.length v + n)%nat) 0%nat st.

(** The characters of the bodies the caches hold. *)
Definition cached_size (cs : list (string * gmap string Stored)) : Z :=
  fold_right (fun nc n =>
                map_fold (fun _ e m => Z.of_nat (String.length (stored_body e)) + m) n (snd nc))
             0 cs.

Definition batch_size (entries : list (string * Stored)) : Z :=
  fold_right (fun e n => Z.of_nat (String.length (stored_body (snd e))) + n) 0 entries.

(** A host in the zone [tz] milliseconds east of Greenwich whose storage
    holds at most [quota] characters and whose caches hold at most
    [cache_quota] characters of bodies. *)
Definition host_with (tz : Z) (quota : nat) (cache_quota : Z) : Host := {|
  Date_parse := parse_iso;
  LocalTZA := fun _ => tz;
  toLowerCase := lower;
  StringToNumber := string_to_number;
  NumberToString := number_to_string;
  JSON_parse := parse;
  JSON_stringify := stringify;
  setItem_accepts := fun st k v => (content_size (<[k := v]> st) <=? quota)%nat;
  cache_refuses := fun cs entries =>
    if cached_size cs + batch_size entries <=? cache_quota then None
    else Some QuotaExceededError;
  origin := "https://rides.example"
|}.

(** The same with caches that hold a million characters. *)
Definition host (tz : Z) (quota : nat) : Host := host_with tz quota 1000000.

End TestHost.

(** ** The service worker's life cycle *)

Definition STATIC_ASSETS : list string :=
  ["/"; "/index.html"; "/manifest.json"; "/favicon.ico"; "/logo192.png";
   "/logo512.png"; "/static/js/main.bundle.js"; "/static/css/main.css"].

(** The calls a life cycle handler makes on the worker's global scope. *)
Inductive lifecycle_call : Type :=
| SkipWaiting
| ClientsClaim
| CachesDelete (name : string).

(** The statuses [cache.addAll] accepts: an ok response that is not partial. *)
Definition addAll_accepts (st : Z) : bool :=
  (200 <=? st) && (st <=? 299) && negb (st =? 206).

(** The fetches of [cache.addAll]: every URL must be answered with an
    accepted status, otherwise the whole call rejects. [network] is what the
    network answers for a URL, [None] for a failed fetch. *)
Fixpoint fetch_all (network : string -> option (Z * string)) (urls : list string)
  : option (list (string * Stored)) :=
  match urls with
  | [] => Some []
  | u :: rest =>
      match network u with
      | Some (st, body) =>
          if addAll_accepts st
          then entries ← fetch_all network rest; Some ((u, mkStored st body) :: entries)
          else None
      | None => None
      end
  end.

(** The puts of a batch, in order. *)
Definition put_all (entries : list (string * Stored)) (c : gmap string Stored)
  : gmap string Stored :=
  foldl (fun c e => <[fst e := snd e]> c) c entries.

(** [caches.delete(name)] *)
Definition caches_delete (name : string) (cs : list (string * gmap string Stored))
  : list (string * gmap string Stored) :=
  List.filter (fun nc => negb (String.eqb (fst nc) name)) cs.

Section LifeCycle.
Context `{Host}.

(** [cache.addAll(paths)] on the cache called [name]: the paths are resolved
    against the worker's origin; nothing is stored unless every fetch is
    accepted and the storage takes the whole batch. The responses it fetches
    are not handed to anyone, so they get no place in the table of streams. *)
Definition cache_addAll (name : string) (paths : list string)
    (network : string -> option (Z * string)) (w : Worker) : result unit * Worker :=
  match fetch_all network (map (fun p => origin ++ p) paths) with
  | Some entries =>
      match cache_refuses (caches w) entries with
      | None =>
          let c := default ∅ (lookup_cache name (caches w)) in
          (Ok tt, mkWorker (update_cache name (put_all entries c) (caches w)) (streams w))
      | Some e => (Throw e, w)
      end
  | None => (Throw TypeError, w)
  end.

(** The install event: the promise given to [waitUntil], the worker after
    it, and the calls made. *)
Definition onInstall (network : string -> option (Z * string)) (w : Worker)
  : result unit * Worker * list lifecycle_call :=
  let w1 := caches_open CACHE_NAME w in
  match cache_addAll CACHE_NAME STATIC_ASSETS network w1 with
  | (Ok _, w2) => (Ok tt, w2, [SkipWaiting])
  | (Throw e, w2) => (Throw e, w2, [])
  end.

End LifeCycle.

(** The activate event: every cache whose name is not the current one is
    deleted, then the clients are claimed. *)
Definition onActivate (w : Worker) : Worker * list lifecycle_call :=
  let cacheNames := map fst (caches w) in
  let old := List.filter (fun cacheName => negb (String.eqb cacheName CACHE_NAME)) cacheNames in
  (mkWorker (foldl (fun cs name => caches_delete name cs) (caches w) old) (streams w),
   (map CachesDelete old ++ [ClientsClaim])%list).

(** ** The refresh button and the contact link of the ride list *)

Section RideListUI.
Context `{Host}.
Import CACHE_KEYS.

Definition removeItem (key : string) : Eff unit :=
  modify (fun w => with_storage (delete key (localStorage w)) w).

(** The click handler of the refresh button; the result tells whether
    [window.location.reload()] was called. *)
Definition handleRefresh (isOnline : bool) : Eff bool :=
  if isOnline then
    removeItem LAST_FETCH;;
    removeItem RIDES;;
    removeItem PROFILE;;
    mret true
  else
    st ← read localStorage;
    let cachedRides := rides (getCachedData st) in
    (if truthy cachedRides then setRides cachedRides else mret tt);;
    mret false.

(** A reload mounts the component anew: the React state starts over, the
    storage stays. *)
Definition reload (w : World) : World :=
  mkWorld (localStorage w) (JArray []) true (trace w).

(** The effect run on mount and whenever [user] changes. *)
Definition onMount (user : bool) (b : Backend) (c : Clock) : Eff unit :=
  if user then fetchData b c else mret tt.

End RideListUI.

Definition isDigit (c : ascii) : bool :=
  let n := nat_of_ascii c in ((48 <=? n) && (n <=? 57))%nat.

(** [s.replace(/\D/g, "")] *)
Fixpoint stripNonDigits (s : string) : string :=
  match s with
  | EmptyString => EmptyString
  | String c s' =>
      if isDigit c then String c (stripNonDigits s') else stripNonDigits s'
  end.

(** The address of the WhatsApp button of a card: the template literal around
    [ride.profiles?.whatsapp?.replace(/\D/g, "")]. A missing link of the
    chain prints as the text undefined; a value that is there and is not a
    string has no [replace] method. *)
Definition whatsappHref (ride : json) : result string :=
  match ride with
  | JNull => Throw TypeError
  | _ =>
      match get_prop "profiles" ride with
      | JNull => Ok ("https://wa.me/" ++ "undefined")
      | profiles =>
          match get_prop "whatsapp" profiles with
          | JNull => Ok ("https://wa.me/" ++ "undefined")
          | JString s => Ok ("https://wa.me/" ++ stripNonDigits s)
          | _ => Throw TypeError
          end
      end
  end.

(** ** The routes of the application *)

Inductive Page : Type :=
| AuthForm | ProfileSetup | PostRide | RideList | MyPosts | AdminDashboard.

(** The route a location matches, in the order of the route table; [RAny]
    is the catch-all. *)
Inductive Route : Type :=
| RLogin | RProfile | RPost | RFind | RMyPosts | RAdmin | RRoot | RAny.

Inductive Element : Type :=
| Show (p : Page)
| Navigate (to : Route).

(** [<ProtectedRoute>]: the children for a signed-in user, otherwise a
    redirect to /login. *)
Definition ProtectedRoute (user : bool) (children : Element) : Element :=
  if user then children else Navigate RLogin.

Definition routeElement (user : bool) (r : Route) : Element :=
  match r with
  | RLogin => if user then Navigate RFind else Show AuthForm
  | RProfile => ProtectedRoute user (Show ProfileSetup)
  | RPost => ProtectedRoute user (Show PostRide)
  | RFind => ProtectedRoute user (Show RideList)
  | RMyPosts => ProtectedRoute user (Show MyPosts)
  | RAdmin => ProtectedRoute user (Show AdminDashboard)
  | RRoot => Navigate (if user then RFind else RLogin)
  | RAny => Navigate (if user then RFind else RLogin)
  end.

(** Following redirects, at most [fuel] of them. *)
Fixpoint settle (fuel : nat) (user : bool) (r : Route) : option Page :=
  match routeElement user r with
  | Show p => Some p
  | Navigate to =>
      match fuel with
      | O => None
      | S fuel' => settle fuel' user to
      end
  end.

(** ** Vocabulary of the statements *)

(** Ascending order of a key, and the elements with a given key. *)
Definition by_key {A : Type} (key : A -> Z) (a b : A) : Prop := key a <= key b.
Definition has_key {A : Type} (key : A -> Z) (d : Z) (a : A) : bool := key a =? d.

(** The events a computation adds to the trace. *)
Definition issued {A : Type} (m : Eff A) (w : World) : list event :=
  drop (length (trace w)) (trace (fst (m w))).

Section Vocabulary.
Context `{Host}.

(** The statement of the specification: same route in the same direction
    after lower-casing, same local calendar day, at most thirty minutes
    apart. *)
Definition sameCalendarDay (t1 t2 : Z) : Prop :=
  YearFromDay (Day (LocalTime t1)) = YearFromDay (Day (LocalTime t2)) /\
  MonthFromDay (Day (LocalTime t1)) = MonthFromDay (Day (LocalTime t2)) /\
  DateFromDay (Day (LocalTime t1)) = DateFromDay (Day (LocalTime t2)).

Definition sameLabel (a b : value) : Prop :=
  exists x y, a = VString x /\ b = VString y /\ toLowerCase x = toLowerCase y.

Definition spec_matches (m c : Ride) : Prop :=
  sameLabel (from m) (from c) /\
  sameLabel (to m) (to c) /\
  exists t1 t2,
    newDate (time m) = Some t1 /\ newDate (time c) = Some t2 /\
    sameCalendarDay t1 t2 /\ Z.abs (t1 - t2) <= 30 * 60 * 1000.

Definition route_typed (r : Ride) : Prop :=
  exists f t, from r = VString f /\ to r = VString t.

(** The condition under which the refresh returns from the cache gate. *)
Definition gate (st : gmap string string) (now : Z) : bool :=
  truthy (isCacheValid st now) &&
  (truthy (rides (getCachedData st)) && truthy (profile (getCachedData st))).

(** The queries of a refresh are answered and the two ride lists are the
    given ones. *)
Definition answers (b : Backend) (myRides candidateRides : list Ride) : Prop :=
  is_Some (profileReply b) /\
  (exists mine, myRidesReply b = Some mine /\ default [] (data mine) = myRides) /\
  (exists others, ridesReply b = Some others /\ default [] (data others) = candidateRides).

(** The worker after a network answer in the network-first branch: the
    response given to the page reads from the stream at position
    [length (streams w)], its clone from the next one. *)
Definition after_response (request : Request) (st : Z) (body : string) (w : Worker)
  : Worker :=
  let cs := caches (caches_open CACHE_NAME w) in
  if String.eqb (method request) "GET" && (st =? 200)
  then
    match cache_refuses cs [(url request, mkStored st body)] with
    | None =>
        mkWorker
          (update_cache CACHE_NAME
             (<[url request := mkStored st body]> (default ∅ (lookup_cache CACHE_NAME cs))) cs)
          (streams w ++ [mkStream body false; mkStream body true])%list
    | Some _ => mkWorker cs (streams w ++ [mkStream body false; mkStream body true])%list
    end
  else mkWorker cs (streams w ++ [mkStream body false; mkStream body false])%list.

(** The storage takes the put of an answer to a request. *)
Definition put_taken (request : Request) (st : Z) (body : string) (w : Worker) : Prop :=
  cache_refuses (caches (caches_open CACHE_NAME w)) [(url request, mkStored st body)] = None.

(** The three queries are answered without a profile or rides error, the
    profile [p] has a gender, and the filter returns [matched]. The error of
    the query for the user's own rides is not read. *)
Definition fetches (b : Backend) (p : json) (matched : list Ride) : Prop :=
  exists rp mine others,
    profileReply b = Some rp /\ data rp = p /\ error rp = false /\
    truthy p = true /\ truthy (get_prop "gender" p) = true /\
    myRidesReply b = Some mine /\ ridesReply b = Some others /\
    error others = false /\
    matchedRides (default [] (data mine)) (default [] (data others)) = Ok matched.

(** The world in which a refresh that took the network path writes the
    cache: the three queries are in the trace. *)
Definition queried (w : World) : World :=
  log (Query QRides) (log (Query QMyRides) (log (Query QProfile) (with_loading true w))).

(** What the network-first branch falls back to when the network fails. *)
Definition fallback (request : Request) (w : Worker) : option Stored :=
  match stored_match request w with
  | Some e => Some e
  | None =>
      if String.eqb (mode request) "navigate" then stored_match indexRequest w
      else None
  end.

End Vocabulary.

(** No cache other than the current one holds an entry for the URL. *)
Definition unshadowed (u : string) (w : Worker) : Prop :=
  Forall (fun nc => fst nc = CACHE_NAME \/ snd nc !! u = None) (caches w).

Definition is_array (v : json) : Prop := exists items, v = JArray items.

(** The events are all queries: no item was written or refused. *)
Definition only_queries (l : list event) : Prop :=
  Forall (fun e => exists q, e = Query q) l.

Fixpoint all_digits (s : string) : bool :=
  match s with
  | EmptyString => true
  | String c s' => isDigit c && all_digits s'
  end.

(** ** Example data

    A user on the campus to Kuril route on 1 May 2024 and the rides of other
    users around that time, on a host in UTC with room for 1000 characters. *)
Module Ex.
Import TestHost.

Definition utc : Host := host 0 1000.

(** The same host with caches that take nothing more. *)
Definition full : Host := host_with 0 1000 0.

(** 2024-05-01T10:00:00Z *)
Definition T0 : Z := 1714557600000.

Definition minutes (n : Z) : Z := n * 60 * 1000.

Definition str (s : string) : value := VString s.

Definition mine : Ride :=
  mkRide 1 (str "Campus") (str "Kuril") (str "2024-05-01T10:00:00Z").

Definition at_30min : Ride :=
  mkRide 2 (str "campus") (str "KURIL") (str "2024-05-01T10:30:00Z").
Definition at_30min_1s : Ride :=
  mkRide 3 (str "campus") (str "KURIL") (str "2024-05-01T10:30:01Z").
Definition reversed : Ride :=
  mkRide 4 (str "Kuril") (str "Campus") (str "2024-05-01T10:00:00Z").
Definition before_15min : Ride :=
  mkRide 5 (str "Campus") (str "Kuril") (str "2024-05-01T09:45:00Z").
Definition bad_time : Ride :=
  mkRide 6 (str "Campus") (str "Kuril") (str "tomorrow morning").
Definition candidates : list Ride :=
  [at_30min; at_30min_1s; reversed; before_15min; bad_time].

(** Rides of the user and candidates at +10, +40 and -5 minutes of [T0]. *)
Definition plus_10 (i : Z) : Ride :=
  mkRide i (str "Campus") (str "Kuril") (str "2024-05-01T10:10:00Z").
Definition plus_40 (i : Z) : Ride :=
  mkRide i (str "Campus") (str "Kuril") (str "2024-05-01T10:40:00Z").
Definition minus_5 (i : Z) : Ride :=
  mkRide i (str "Campus") (str "Kuril") (str "2024-05-01T09:55:00Z").
Definition minus_10 (i : Z) : Ride :=
  mkRide i (str "Campus") (str "Kuril") (str "2024-05-01T09:50:00Z").

Definition steady (now : Z) : nat -> Z := fun _ => now.

(** Rows with a null origin, and with null times. *)
Definition no_origin : Ride :=
  mkRide 7 VNull (str "Kuril") (str "2024-05-01T10:00:00Z").
Definition null_time (i : Z) : Ride := mkRide i (str "Campus") (str "Kuril") VNull.

Definition fresh : World := mkWorld ∅ (JArray []) true [].

Definition a_profile : json :=
  JObject [("user_id", JNumber 7); ("gender", JString "Female")].

Definition reply {A : Type} (a : A) : option (Reply A) := Some (mkReply a false).

Definition backend (myRides rides : list Ride) : Backend :=
  mkBackend (reply a_profile) (reply (Some myRides)) (reply (Some rides)).

Definition clock_at (now : Z) : Clock := mkClock now (steady now) now.

(** The world after a refresh at [T0] that fetched and cached one match. *)
Definition cached : World :=
  fst (fetchData (H := utc) (backend [mine] candidates) (clock_at T0) fresh).

(** A stale cache holding one ride. *)
Definition stale : World :=
  mkWorld (<[CACHE_KEYS.RIDES := "[{" ++ quote ++ "id" ++ quote ++ ":9}]"]> ∅)
          (JArray []) true [].

Definition api_request : Request :=
  mkRequest "https://rides.example/api/x" "GET" "cors".
Definition asset_request : Request :=
  mkRequest "https://rides.example/static/js/main.bundle.js" "GET" "no-cors".
Definition page_request : Request :=
  mkRequest "https://rides.example/rides" "GET" "navigate".
Definition post_request : Request :=
  mkRequest "https://rides.example/upload" "POST" "cors".

(** A worker whose named cache holds the root document. *)
Definition installed : Worker :=
  mkWorker
    [(CACHE_NAME, {["https://rides.example/index.html" := mkStored 200 "<html>"]})]
    [].

(** A network that answers every URL, and one that has lost a logo. *)
Definition net_ok (u : string) : option (Z * string) := Some (200, "asset " ++ u).
Definition net_missing_logo (u : string) : option (Z * string) :=
  if String.eqb u "https://rides.example/logo512.png" then Some (404, "not found")
  else net_ok u.

(** A worker that still has the cache of the previous version, created
    first, with its copy of the script. *)
Definition upgraded : Worker :=
  mkWorker
    [("ride-partner-v1",
      {["https://rides.example/static/js/main.bundle.js" := mkStored 200 "old js"]});
     (CACHE_NAME, ∅)]
    [].

(** Rides ten minutes before and after midnight, Greenwich time. *)
Definition late (i : Z) : Ride :=
  mkRide i (str "Campus") (str "Kuril") (str "2024-05-01T23:50:00Z").
Definition early (i : Z) : Ride :=
  mkRide i (str "Campus") (str "Kuril") (str "2024-05-02T00:10:00Z").

(** A backend whose query for the user's own rides fails. *)
Definition own_rides_fail : Backend :=
  mkBackend (reply a_profile) (Some (mkReply None true)) (reply (Some candidates)).

Definition a_card : json :=
  JObject [("id", JNumber 2);
           ("profiles", JObject [("name", JString "Rima");
                                 ("whatsapp", JString "+880 17-1234 5678")])].

End Ex.

(** * Properties *)

Local Open Scope list_scope.

(** Refutes membership of an event in an explicit list of other events. *)
Ltac not_in_events H :=
  repeat (apply elem_of_cons in H as [H | H]; [discriminate |]);
  by apply elem_of_nil in H.

(** ** Calendar days *)

(** Two day numbers have the same year, month and day of the month exactly
    when they are the same day number. *)
Lemma civil_fields_inj (d1 d2 : Z) :
  YearFromDay d1 = YearFromDay d2 ->
  MonthFromDay d1 = MonthFromDay d2 ->
  DateFromDay d1 = DateFromDay d2 ->
  d1 = d2.
Proof.
  unfold DateFromDay, DayWithinYear. intros Hy Hm Hd.
  rewrite Hy, Hm in Hd. lia.
Qed.

(** ** Array iteration with a callback that may throw *)

Section ArrayIteration.
Context {A : Type}.
Implicit Types (f : A -> result bool) (l : list A).

Lemma Array_some_true f l :
  Array_some f l = Ok true -> exists x, x ∈ l /\ f x = Ok true.
Proof.
  induction l as [|x l IH]; simpl; [discriminate |].
  destruct (f x) as [[|]|e] eqn:E; simpl; try discriminate.
  - intros _. exists x. split; [left | done].
  - intros Hl. destruct (IH Hl) as (y & Hy & Hfy). exists y. split; [by right | done].
Qed.

Lemma Array_some_total f l (P : A -> Prop) :
  (forall x, x ∈ l -> exists b, f x = Ok b /\ (b = true <-> P x)) ->
  exists b, Array_some f l = Ok b /\ (b = true <-> exists x, x ∈ l /\ P x).
Proof.
  induction l as [|x l IH]; intros Hf; simpl.
  - exists false. split; [done |]. split; [discriminate |].
    intros (x & Hx & _). by apply elem_of_nil in Hx.
  - destruct (Hf x) as (b & Eb & Hb); [left |]. rewrite Eb. simpl.
    destruct b.
    + exists true. split; [done |]. split; [| done].
      intros _. exists x. split; [left | by apply Hb].
    + destruct IH as (b' & Eb' & Hb'); [intros y Hy; apply Hf; by right |].
      exists b'. split; [done |]. rewrite Hb'. split.
      * intros (y & Hy & HP). exists y. split; [by right | done].
      * intros (y & Hy & HP). apply elem_of_cons in Hy as [-> | Hy].
        -- apply Hb in HP. discriminate.
        -- eauto.
Qed.

Lemma Array_filter_accepts f l r :
  Array_filter f l = Ok r -> forall x, x ∈ r -> f x = Ok true.
Proof.
  revert r. induction l as [|y l IH]; simpl; intros r.
  - intros [= <-] x Hx. by apply elem_of_nil in Hx.
  - destruct (f y) as [b|e] eqn:E; simpl; [| discriminate].
    destruct (Array_filter f l) as [rest|e]; simpl; [| discriminate].
    intros [= <-] x Hx. destruct b.
    + apply elem_of_cons in Hx as [-> | Hx]; [done | by apply (IH rest)].
    + by apply (IH rest).
Qed.

Lemma Array_filter_total f l (P : A -> Prop) :
  (forall x, x ∈ l -> exists b, f x = Ok b /\ (b = true <-> P x)) ->
  exists r, Array_filter f l = Ok r /\
            (forall x, x ∈ r <-> x ∈ l /\ P x) /\ sublist r l.
Proof.
  induction l as [|y l IH]; intros Hf; simpl.
  - exists []. split_and!; [done | | done].
    intros x. split; [intros Hx | intros [Hx _]]; by apply elem_of_nil in Hx.
  - destruct (Hf y) as (b & Eb & Hb); [left |]. rewrite Eb. simpl.
    destruct IH as (rest & Er & Hmem & Hsub); [intros z Hz; apply Hf; by right |].
    rewrite Er. simpl. eexists. split; [reflexivity |].
    destruct b.
    + split; [| by apply sublist_skip].
      intros x. rewrite !elem_of_cons, Hmem. split.
      * intros [-> | [Hx HP]]; [split; [by left | by apply Hb] | split; [by right | done]].
      * intros [[-> | Hx] HP]; [by left | right; done].
    + split; [| by apply sublist_cons].
      intros x. rewrite elem_of_cons, Hmem. split.
      * intros [Hx HP]. split; [by right | done].
      * intros [[-> | Hx] HP]; [apply Hb in HP; discriminate | done].
Qed.

End ArrayIteration.

(** ** Array.prototype.sort *)

Section SortProperties.
Context {A : Type}.
Variable comparefn : nat -> A -> A -> Z.

Lemma sort_insert_perm (k : nat) (x : A) (l : list A) :
  Permutation (fst (sort_insert comparefn k x l)) (x :: l).
Proof.
  revert k. induction l as [|y l IH]; intros k; simpl; [done |].
  destruct (comparefn k x y <=? 0); simpl; [done |].
  specialize (IH (S k)). destruct (sort_insert comparefn (S k) x l) as [r k'].
  simpl in *. rewrite IH. apply perm_swap.
Qed.

(** Whatever the comparator answers, sorting only rearranges. *)
Lemma Array_sort_perm (k : nat) (l : list A) :
  Permutation (fst (Array_sort comparefn k l)) l.
Proof.
  induction l as [|x l IH]; simpl; [done |].
  destruct (Array_sort comparefn k l) as [s k']. simpl in IH.
  rewrite sort_insert_perm. by constructor.
Qed.

(** From here on the comparator is the difference of a key on the elements
    that satisfy [dom], at every call. *)
Variable key : A -> Z.
Variable dom : A -> Prop.
Hypothesis comparefn_key :
  forall k x y, dom x -> dom y -> comparefn k x y = key x - key y.

Lemma sort_insert_split (k : nat) (x : A) (l : list A) :
  dom x -> Forall dom l ->
  exists l1 l2,
    fst (sort_insert comparefn k x l) = l1 ++ x :: l2 /\ l = l1 ++ l2 /\
    Forall (fun y => key y < key x) l1 /\
    match l2 with [] => True | y :: _ => key x <= key y end.
Proof.
  intros Hx. revert k. induction l as [|y l IH]; intros k Hl; simpl.
  - exists [], []. split_and!; done.
  - apply Forall_cons in Hl as [Hy Hl].
    rewrite (comparefn_key k x y Hx Hy).
    destruct (key x - key y <=? 0) eqn:E.
    + apply Z.leb_le in E. exists [], (y :: l). split_and!; try done. lia.
    + apply Z.leb_gt in E.
      destruct (IH (S k) Hl) as (l1 & l2 & E1 & E2 & Hlt & Hhd).
      destruct (sort_insert comparefn (S k) x l) as [r k']. simpl in *.
      exists (y :: l1), l2. subst. split_and!; try done.
      constructor; [lia | done].
Qed.

Lemma sort_insert_sorted (k : nat) (x : A) (l : list A) :
  dom x -> Forall dom l -> Sorted (by_key key) l ->
  Sorted (by_key key) (fst (sort_insert comparefn k x l)).
Proof.
  intros Hx Hl Hs.
  destruct (sort_insert_split k x l Hx Hl) as (l1 & l2 & -> & -> & Hlt & Hhd).
  clear Hl. induction l1 as [|a l1 IH]; simpl in *.
  - constructor; [done |]. destruct l2; constructor. done.
  - apply Sorted_inv in Hs as [Hs Hrel]. apply Forall_cons in Hlt as [Ha Hlt].
    constructor; [by apply IH |].
    destruct l1; simpl in *; constructor; unfold by_key.
    + lia.
    + by apply HdRel_inv in Hrel.
Qed.

Lemma sort_insert_stable (k : nat) (x : A) (l : list A) (d : Z) :
  dom x -> Forall dom l ->
  List.filter (has_key key d) (fst (sort_insert comparefn k x l))
  = List.filter (has_key key d) (x :: l).
Proof.
  intros Hx Hl.
  destruct (sort_insert_split k x l Hx Hl) as (l1 & l2 & -> & -> & Hlt & _).
  simpl. rewrite !List.filter_app. simpl.
  destruct (has_key key d x) eqn:E; [| done].
  apply Z.eqb_eq in E.
  assert (List.filter (has_key key d) l1 = []) as ->; [| done].
  clear -Hlt E. induction Hlt as [|a l1 Ha _ IH]; simpl; [done |].
  unfold has_key at 1. destruct (key a =? d) eqn:Ea; [| done].
  apply Z.eqb_eq in Ea. lia.
Qed.

Lemma Array_sort_dom (k : nat) (l : list A) :
  Forall dom l -> Forall dom (fst (Array_sort comparefn k l)).
Proof.
  intros Hl. eapply Permutation_Forall; [| exact Hl].
  symmetry. apply Array_sort_perm.
Qed.

(** The result is in ascending order of the key. *)
Lemma Array_sort_sorted (k : nat) (l : list A) :
  Forall dom l -> Sorted (by_key key) (fst (Array_sort comparefn k l)).
Proof.
  induction l as [|x l IH]; intros Hl; simpl; [constructor |].
  apply Forall_cons in Hl as [Hx Hl].
  pose proof (Array_sort_dom k l Hl) as Hd. specialize (IH Hl).
  destruct (Array_sort comparefn k l) as [s k']. simpl in *.
  by apply sort_insert_sorted.
Qed.

(** Elements with the same key keep the order they had in the input. *)
Lemma Array_sort_stable (k : nat) (l : list A) (d : Z) :
  Forall dom l ->
  List.filter (has_key key d) (fst (Array_sort comparefn k l)) = List.filter (has_key key d) l.
Proof.
  induction l as [|x l IH]; intros Hl; simpl; [done |].
  apply Forall_cons in Hl as [Hx Hl].
  pose proof (Array_sort_dom k l Hl) as Hd. specialize (IH Hl).
  destruct (Array_sort comparefn k l) as [s k']. simpl in *.
  rewrite sort_insert_stable by done. simpl. by rewrite IH.
Qed.

Lemma filter_key_head (x : A) (l : list A) :
  List.filter (has_key key (key x)) (x :: l) = x :: List.filter (has_key key (key x)) l.
Proof. simpl. unfold has_key at 1. by rewrite Z.eqb_refl. Qed.

(** Ascending order and stability determine the result: every stable sort
    returns the list the insertion sort returns. *)
Lemma stable_sorted_unique (l1 l2 : list A) :
  Sorted (by_key key) l1 -> Sorted (by_key key) l2 ->
  (forall d, List.filter (has_key key d) l1 = List.filter (has_key key d) l2) ->
  l1 = l2.
Proof.
  intros S1 S2. apply Sorted_StronglySorted in S1, S2;
    try (intros a b c; unfold by_key; lia).
  revert l2 S2. induction S1 as [|x l1 S1 IH Hx]; intros l2 S2 Hf.
  - destruct l2 as [|y l2]; [done |].
    specialize (Hf (key y)). rewrite filter_key_head in Hf. discriminate.
  - destruct S2 as [|y l2 S2 Hy].
    + specialize (Hf (key x)). rewrite filter_key_head in Hf. discriminate.
    + assert (key x = key y) as Ek.
      { pose proof (Hf (key x)) as Fx. pose proof (Hf (key y)) as Fy.
        rewrite filter_key_head in Fx. rewrite (filter_key_head y l2) in Fy.
        assert (In x (y :: l2)) as Hxin.
        { eapply (proj1 (filter_In (has_key key (key x)) x (y :: l2))).
          rewrite <- Fx. by left. }
        assert (In y (x :: l1)) as Hyin.
        { eapply (proj1 (filter_In (has_key key (key y)) y (x :: l1))).
          rewrite Fy. by left. }
        destruct Hxin as [-> | Hxin]; [done |].
        destruct Hyin as [-> | Hyin]; [done |].
        rewrite Forall_forall in Hx, Hy. apply list_elem_of_In in Hxin, Hyin.
        specialize (Hx _ Hyin). specialize (Hy _ Hxin). unfold by_key in *. lia. }
      pose proof (Hf (key x)) as Fx. rewrite filter_key_head in Fx.
      rewrite Ek in Fx. rewrite filter_key_head in Fx. injection Fx as -> Fx.
      f_equal. apply IH; [done |]. intros d. specialize (Hf d). simpl in Hf.
      destruct (has_key key d y); [by injection Hf | done].
Qed.

End SortProperties.

(** The year computed for a day is the year whose first day is the latest
    one not after it: checked for every day from 1 January 1900 to the end of
    2100. *)
Lemma YearFromDay_checked :
  all_from (Z.to_nat 73414) (-25567)
    (fun d => (DayFromYear (YearFromDay d) <=? d) &&
              (d <? DayFromYear (YearFromDay d + 1))) = true.
Proof. vm_compute. reflexivity. Qed.

Section MatchProperties.
Context `{Host}.

Lemma sameCalendarDay_Day (t1 t2 : Z) :
  sameCalendarDay t1 t2 <-> Day (LocalTime t1) = Day (LocalTime t2).
Proof.
  unfold sameCalendarDay. split.
  - intros (Hy & Hm & Hd). by apply civil_fields_inj.
  - intros ->. done.
Qed.

Lemma isTimeWithinRange_spec (a b : value) (r : Z) :
  isTimeWithinRange a b r = true <->
  exists t1 t2, newDate a = Some t1 /\ newDate b = Some t2 /\
                Z.abs (t1 - t2) <= r * (60 * 1000).
Proof.
  unfold isTimeWithinRange.
  destruct (newDate a) as [t1|], (newDate b) as [t2|];
    try (split; [discriminate | intros (? & ? & ? & ? & ?); discriminate]).
  rewrite Qle_bool_iff. unfold Qle. simpl.
  split.
  - intros Hle. exists t1, t2. repeat split. lia.
  - intros (x & y & [= <-] & [= <-] & Hle). lia.
Qed.

Lemma strict_eq_spec (a b : option Z) :
  strict_eq a b = true <-> exists x, a = Some x /\ b = Some x.
Proof.
  destruct a as [x|], b as [y|]; simpl;
    try (split; [discriminate | intros (? & ? & ?); discriminate]).
  rewrite Z.eqb_eq. split.
  - intros ->. eauto.
  - intros (z & [= ->] & [= ->]). done.
Qed.

Lemma isSameDay_spec (a b : value) :
  isSameDay a b = true <->
  exists t1 t2, newDate a = Some t1 /\ newDate b = Some t2 /\ sameCalendarDay t1 t2.
Proof.
  unfold isSameDay, sameCalendarDay.
  rewrite !andb_true_iff, !strict_eq_spec.
  destruct (newDate a) as [t1|], (newDate b) as [t2|]; simpl.
  - split.
    + intros [[(y & [= Hy1] & [= Hy2]) (m & [= Hm1] & [= Hm2])] (d & [= Hd1] & [= Hd2])].
      exists t1, t2. repeat split; congruence.
    + intros (x & y & [= <-] & [= <-] & Hy & Hm & Hd).
      rewrite Hy, Hm, Hd. eauto 10.
  - split; [intros [[(? & ? & ?) _] _] | intros (? & ? & ? & ? & _)]; discriminate.
  - split; [intros [[(? & ? & ?) _] _] | intros (? & ? & ? & ? & _)]; discriminate.
  - split; [intros [[(? & ? & ?) _] _] | intros (? & ? & ? & ? & _)]; discriminate.
Qed.

(** On rides whose route labels are strings the callback returns, and it
    accepts exactly the pairs the specification calls matching. *)
Lemma matchCallback_typed (myRide ride : Ride) :
  route_typed myRide -> route_typed ride ->
  exists b, matchCallback ride myRide = Ok b /\ (b = true <-> spec_matches myRide ride).
Proof.
  intros (fm & tm & Hfm & Htm) (fc & tc & Hfc & Htc).
  unfold matchCallback. rewrite Hfm, Hfc, Htm, Htc. simpl.
  destruct (String.eqb (toLowerCase fm) (toLowerCase fc)) eqn:Ef; simpl;
    eexists; (split; [reflexivity |]).
  - apply String.eqb_eq in Ef.
    rewrite !andb_true_iff, String.eqb_eq, isSameDay_spec, isTimeWithinRange_spec.
    unfold spec_matches, sameLabel. rewrite Hfm, Hfc, Htm, Htc. split.
    + intros [[Et (t1 & t2 & Ea & Eb & Hd)] (t1' & t2' & Ea' & Eb' & Hw)].
      split; [eauto 10 |]. split; [eauto 10 |].
      exists t1, t2. split_and!; try done.
      rewrite Ea in Ea'. rewrite Eb in Eb'. simplify_eq. lia.
    + intros [_ [(x & y & [= <-] & [= <-] & Et) (t1 & t2 & Ea & Eb & Hd & Hw)]].
      split; [split; [done |] |]; exists t1, t2; split_and!; try done; lia.
  - apply String.eqb_neq in Ef. split; [discriminate |].
    intros [(x & y & Hx & Hy & E) _]. rewrite Hfm in Hx. rewrite Hfc in Hy.
    simplify_eq.
Qed.

Lemma matchCallback_true (myRide ride : Ride) :
  matchCallback ride myRide = Ok true ->
  isSameDay (time myRide) (time ride) = true /\
  isTimeWithinRange (time myRide) (time ride) 30 = true.
Proof.
  unfold matchCallback.
  destruct (call_toLowerCase (from myRide)) as [a|]; simpl; [| discriminate].
  destruct (call_toLowerCase (from ride)) as [b|]; simpl; [| discriminate].
  destruct (String.eqb a b); simpl.
  - destruct (call_toLowerCase (to myRide)) as [c|]; simpl; [| discriminate].
    destruct (call_toLowerCase (to ride)) as [d|]; simpl; [| discriminate].
    intros [= E]. apply andb_true_iff in E as [E ?]. apply andb_true_iff in E as [_ ?].
    done.
  - discriminate.
Qed.

(** A ride the filter keeps has a valid time. *)
Lemma retained_time_valid (myRides candidateRides matched : list Ride) :
  matchedRides myRides candidateRides = Ok matched ->
  Forall (fun r => is_Some (newDate (time r))) matched.
Proof.
  intros Hm. apply Forall_forall. intros c Hc.
  apply (Array_filter_accepts _ _ _ Hm) in Hc.
  apply Array_some_true in Hc as (m & _ & Hc).
  apply matchCallback_true in Hc as [Hd _].
  apply isSameDay_spec in Hd as (t1 & t2 & _ & E & _). by rewrite E.
Qed.

Lemma matchedRides_typed (myRides candidateRides : list Ride) :
  Forall route_typed myRides -> Forall route_typed candidateRides ->
  exists matched,
    matchedRides myRides candidateRides = Ok matched /\
    (forall c, c ∈ matched <->
               c ∈ candidateRides /\ exists m, m ∈ myRides /\ spec_matches m c) /\
    sublist matched candidateRides.
Proof.
  intros Hmy Hc. rewrite Forall_forall in Hmy, Hc.
  apply Array_filter_total. intros c Hcin.
  apply Array_some_total. intros m Hmin.
  apply matchCallback_typed; auto.
Qed.

(** C1: when the route labels are strings, a candidate is in the result of
    the match exactly when it is a candidate and some ride of the user has the
    same lower-cased origin and destination in the same direction, falls on
    the same local calendar day and is at most thirty minutes (1 800 000 ms,
    inclusive) away; the result takes each candidate at most as often as the
    input lists it, and is empty when either list is empty. *)
Theorem match_filter_membership (myRides candidateRides : list Ride) (clock : nat -> Z) :
  Forall route_typed myRides -> Forall route_typed candidateRides ->
  exists out,
    matchRides myRides candidateRides clock = Ok out /\
    (forall c, c ∈ out <->
               c ∈ candidateRides /\ exists m, m ∈ myRides /\ spec_matches m c) /\
    out ⊆+ candidateRides /\
    (myRides = [] \/ candidateRides = [] -> out = []).
Proof.
  intros Hmy Hc.
  destruct (matchedRides_typed _ _ Hmy Hc) as (matched & Em & Hmem & Hsub).
  unfold matchRides. rewrite Em. simpl. eexists. split; [reflexivity |].
  assert (sortedRides clock matched ≡ₚ matched) as Hp by apply Array_sort_perm.
  assert (sortedRides clock matched ⊆+ candidateRides) as Hsm.
  { rewrite Hp. by apply sublist_submseteq. }
  split_and!.
  - intros c. rewrite Hp. apply Hmem.
  - done.
  - intros [-> | ->].
    + destruct (sortedRides clock matched) as [|c out] eqn:E; [done |].
      assert (c ∈ matched) as Hin by (rewrite <- Hp; left).
      apply Hmem in Hin as (_ & m & Hm & _). by apply elem_of_nil in Hm.
    + by apply submseteq_nil_r.
Qed.

Lemma SortCompare_distance (clock : nat -> Z) (now : Z) :
  (forall k, clock k = now) ->
  forall k x y, is_Some (newDate (time x)) -> is_Some (newDate (time y)) ->
                SortCompare clock k x y = distance now x - distance now y.
Proof.
  intros Hc k x y [tx Ex] [ty Ey].
  unfold SortCompare, compareFn, distance. by rewrite Ex, Ey, !Hc.
Qed.

(** C2: when every reading of the clock during the sort is [now], the list
    returned for the retained candidates is a rearrangement of them in
    ascending order of |time - now|, and candidates at the same distance
    keep the order they had among the retained candidates. It is the only
    list with these properties, whatever stable algorithm the engine uses. *)
Theorem sorted_by_proximity (myRides candidateRides matched : list Ride)
    (clock : nat -> Z) (now : Z) :
  matchedRides myRides candidateRides = Ok matched ->
  (forall k, clock k = now) ->
  sortedRides clock matched ≡ₚ matched /\
  Sorted (fun a b => distance now a <= distance now b) (sortedRides clock matched) /\
  (forall d, List.filter (fun r => distance now r =? d) (sortedRides clock matched)
             = List.filter (fun r => distance now r =? d) matched) /\
  (forall l',
      Sorted (fun a b => distance now a <= distance now b) l' ->
      (forall d, List.filter (fun r => distance now r =? d) l'
                 = List.filter (fun r => distance now r =? d) matched) ->
      l' = sortedRides clock matched).
Proof.
  intros Hm Hc. pose proof (retained_time_valid _ _ _ Hm) as Hv.
  pose proof (SortCompare_distance clock now Hc) as Hk.
  pose proof (Array_sort_sorted _ _ _ Hk 0%nat matched Hv) as Hsorted.
  pose proof (fun d => Array_sort_stable _ _ _ Hk 0%nat matched d Hv) as Hstable.
  split_and!.
  - apply Array_sort_perm.
  - exact Hsorted.
  - exact Hstable.
  - intros l' Hs' Hf'. apply (stable_sorted_unique (distance now)); [done | done |].
    intros d. unfold sortedRides. etrans; [apply Hf' |]. symmetry. apply Hstable.
Qed.

(** C4: when the time of either ride of a pair is a string that does not
    parse to a valid timestamp, the same-day check and the thirty minute
    check are both false, and the callback does not accept the pair. *)
Theorem malformed_time_is_no_match (m c : Ride) (sm sc : string) :
  time m = VString sm -> time c = VString sc ->
  Date_parse sm = None \/ Date_parse sc = None ->
  isSameDay (time m) (time c) = false /\
  isTimeWithinRange (time m) (time c) 30 = false /\
  matchCallback c m <> Ok true.
Proof.
  intros Em Ec Hbad.
  assert (isSameDay (time m) (time c) = false) as Hd.
  { apply not_true_is_false. rewrite isSameDay_spec, Em, Ec. simpl.
    intros (t1 & t2 & E1 & E2 & _). destruct Hbad; congruence. }
  assert (isTimeWithinRange (time m) (time c) 30 = false) as Hw.
  { apply not_true_is_false. rewrite isTimeWithinRange_spec, Em, Ec. simpl.
    intros (t1 & t2 & E1 & E2 & _). destruct Hbad; congruence. }
  split_and!; [done | done |].
  intros Ht. apply matchCallback_true in Ht as [Ht _]. congruence.
Qed.

End MatchProperties.

(** ** The data cache *)

Section CacheProperties.
Context `{Host}.
Import CACHE_KEYS.

Lemma keys_distinct : RIDES <> PROFILE /\ RIDES <> LAST_FETCH /\ PROFILE <> LAST_FETCH.
Proof. split_and!; discriminate. Qed.

(** The four ways a write can go. *)
Lemma setCacheData_cases (rides profile : json) (now : Z) (w : World) :
  let sr := JSON_stringify rides in
  let sp := JSON_stringify profile in
  let ts := NumberToString now in
  let st := localStorage w in
  let w' := fst (setCacheData rides profile now w) in
  snd (setCacheData rides profile now w) = Ok tt /\
  rides_state w' = rides_state w /\ loading w' = loading w /\
  ((trace w' = trace w ++ [SetItemFailed RIDES] /\ localStorage w' = st) \/
   (trace w' = trace w ++ [SetItem RIDES sr; SetItemFailed PROFILE] /\
    localStorage w' = <[RIDES := sr]> st) \/
   (trace w' = trace w ++ [SetItem RIDES sr; SetItem PROFILE sp; SetItemFailed LAST_FETCH] /\
    localStorage w' = <[PROFILE := sp]> (<[RIDES := sr]> st)) \/
   (trace w' = trace w ++ [SetItem RIDES sr; SetItem PROFILE sp; SetItem LAST_FETCH ts] /\
    localStorage w' = <[LAST_FETCH := ts]> (<[PROFILE := sp]> (<[RIDES := sr]> st)))).
Proof.
  intros sr sp ts st w'. subst w'.
  unfold setCacheData, try_catch, mbind, Eff_bind, setItem. fold sr sp ts. simpl.
  destruct (setItem_accepts (localStorage w) RIDES sr) eqn:E1; simpl.
  - destruct (setItem_accepts (<[RIDES:=sr]> (localStorage w)) PROFILE sp) eqn:E2; simpl.
    + destruct (setItem_accepts (<[PROFILE:=sp]> (<[RIDES:=sr]> (localStorage w)))
                  LAST_FETCH ts) eqn:E3; simpl.
      * split_and!; try done. do 3 right. by rewrite <- !app_assoc.
      * split_and!; try done. do 2 right. left. by rewrite <- !app_assoc.
    + split_and!; try done. right. left. by rewrite <- !app_assoc.
  - split_and!; try done. by left.
Qed.

(** The run of a write, as the host's answers to the three [setItem] calls
    decide it. *)
Lemma setCacheData_run (rides profile : json) (now : Z) (w : World) :
  let sr := JSON_stringify rides in
  let sp := JSON_stringify profile in
  let ts := NumberToString now in
  let st := localStorage w in
  let a1 := setItem_accepts st RIDES sr in
  let a2 := setItem_accepts (<[RIDES := sr]> st) PROFILE sp in
  let a3 := setItem_accepts (<[PROFILE := sp]> (<[RIDES := sr]> st)) LAST_FETCH ts in
  trace (fst (setCacheData rides profile now w))
  = trace w ++
      (if a1 then
         SetItem RIDES sr ::
           (if a2 then
              SetItem PROFILE sp ::
                (if a3 then [SetItem LAST_FETCH ts] else [SetItemFailed LAST_FETCH])
            else [SetItemFailed PROFILE])
       else [SetItemFailed RIDES]) /\
  localStorage (fst (setCacheData rides profile now w))
  = (if a1 then
       if a2 then
         if a3 then <[LAST_FETCH := ts]> (<[PROFILE := sp]> (<[RIDES := sr]> st))
         else <[PROFILE := sp]> (<[RIDES := sr]> st)
       else <[RIDES := sr]> st
     else st).
Proof.
  intros sr sp ts st a1 a2 a3. subst a1 a2 a3.
  unfold setCacheData, try_catch, mbind, Eff_bind, setItem. fold sr sp ts. simpl.
  fold st.
  destruct (setItem_accepts st RIDES sr); simpl; [| done].
  destruct (setItem_accepts (<[RIDES:=sr]> st) PROFILE sp); simpl;
    [| by rewrite <- !app_assoc].
  destruct (setItem_accepts (<[PROFILE:=sp]> (<[RIDES:=sr]> st)) LAST_FETCH ts); simpl;
    by rewrite <- !app_assoc.
Qed.

(** C10: a write performs its [setItem] calls in the order rides, profile,
    last fetch time and stops at the first one the host refuses: each item is
    written exactly when the host accepts it and every earlier one, the events
    and the storage after the call are the ones given below, and nothing is
    thrown to the caller. So the time stamp is written exactly when all three
    calls are accepted, only on top of both data writes of the same call; when
    a data write failed the stored time stamp is the one from before. *)
Theorem setCacheData_ordered (rides profile : json) (now : Z) (w : World) :
  let sr := JSON_stringify rides in
  let sp := JSON_stringify profile in
  let ts := NumberToString now in
  let st := localStorage w in
  let w' := fst (setCacheData rides profile now w) in
  let a1 := setItem_accepts st RIDES sr in
  let a2 := setItem_accepts (<[RIDES := sr]> st) PROFILE sp in
  let a3 := setItem_accepts (<[PROFILE := sp]> (<[RIDES := sr]> st)) LAST_FETCH ts in
  snd (setCacheData rides profile now w) = Ok tt /\
  trace w' = trace w ++
      (if a1 then
         SetItem RIDES sr ::
           (if a2 then
              SetItem PROFILE sp ::
                (if a3 then [SetItem LAST_FETCH ts] else [SetItemFailed LAST_FETCH])
            else [SetItemFailed PROFILE])
       else [SetItemFailed RIDES]) /\
  localStorage w' =
    (if a1 then
       if a2 then
         if a3 then <[LAST_FETCH := ts]> (<[PROFILE := sp]> (<[RIDES := sr]> st))
         else <[PROFILE := sp]> (<[RIDES := sr]> st)
       else <[RIDES := sr]> st
     else st) /\
  (SetItem LAST_FETCH ts ∈ issued (setCacheData rides profile now) w <->
   a1 && a2 && a3 = true) /\
  (SetItem LAST_FETCH ts ∈ issued (setCacheData rides profile now) w ->
   localStorage w' !! RIDES = Some sr /\ localStorage w' !! PROFILE = Some sp /\
   localStorage w' !! LAST_FETCH = Some ts) /\
  (SetItem LAST_FETCH ts ∉ issued (setCacheData rides profile now) w ->
   localStorage w' !! LAST_FETCH = st !! LAST_FETCH).
Proof.
  intros sr sp ts st w' a1 a2 a3.
  destruct (setCacheData_cases rides profile now w) as (Hok & _ & _ & _).
  destruct (setCacheData_run rides profile now w) as [Ht Hs].
  fold sr sp ts st w' a1 a2 a3 in Ht, Hs.
  split; [done |]. split; [exact Ht |]. split; [exact Hs |].
  unfold issued. fold w'. rewrite Ht, Hs, drop_app_length. subst st.
  destruct a1; simpl.
  - destruct a2; simpl.
    + destruct a3; simpl.
      * split_and!.
        -- split; [done |]. intros _. do 2 right. left.
        -- intros _. split_and!; by simplify_map_eq.
        -- intros Hn. exfalso. apply Hn. do 2 right. left.
      * split_and!.
        -- split; [intros Hin; not_in_events Hin | discriminate].
        -- intros Hin. not_in_events Hin.
        -- intros _. by simplify_map_eq.
    + split_and!.
      * split; [intros Hin; not_in_events Hin | discriminate].
      * intros Hin. not_in_events Hin.
      * intros _. by simplify_map_eq.
  - split_and!.
    + split; [intros Hin; not_in_events Hin | discriminate].
    + intros Hin. not_in_events Hin.
    + done.
Qed.

(** What a write that reached its third [setItem] leaves in storage. *)
Lemma setCacheData_complete (rides profile : json) (now : Z) (w : World) :
  SetItem LAST_FETCH (NumberToString now) ∈ issued (setCacheData rides profile now) w ->
  localStorage (fst (setCacheData rides profile now w))
  = <[LAST_FETCH := NumberToString now]>
      (<[PROFILE := JSON_stringify profile]>
         (<[RIDES := JSON_stringify rides]> (localStorage w))).
Proof.
  intros Hin.
  destruct (setCacheData_cases rides profile now w) as (_ & _ & _ & Hcases).
  unfold issued in Hin.
  destruct Hcases as [[Et _] | [[Et _] | [[Et _] | [_ Es]]]]; [| | | done];
    rewrite Et, drop_app_length in Hin; not_in_events Hin.
Qed.

Lemma isCacheValid_true (st : gmap string string) (now : Z) :
  isCacheValid st now = JBool true <->
  exists s ts, st !! LAST_FETCH = Some s /\ s <> "" /\
               StringToNumber s = Some ts /\ now - ts < 15 * 60 * 1000.
Proof.
  unfold isCacheValid, CACHE_EXPIRATION. split.
  - destruct (st !! LAST_FETCH) as [s|]; [| discriminate]. simpl.
    destruct (String.eqb s "") eqn:Es; simpl; [discriminate |].
    apply String.eqb_neq in Es.
    destruct (StringToNumber s) as [ts|] eqn:En; [| discriminate].
    intros [= Hlt]. apply Z.ltb_lt in Hlt. exists s, ts. done.
  - intros (s & ts & -> & Hs & -> & Hlt). simpl.
    apply String.eqb_neq in Hs. rewrite Hs. simpl.
    apply Z.ltb_lt in Hlt. by rewrite Hlt.
Qed.

Lemma truthy_isCacheValid (st : gmap string string) (now : Z) :
  truthy (isCacheValid st now) = true <-> isCacheValid st now = JBool true.
Proof.
  unfold isCacheValid.
  destruct (st !! LAST_FETCH) as [s|]; simpl; [| done].
  destruct (String.eqb s "") eqn:Es; simpl.
  - apply String.eqb_eq in Es. subst. done.
  - destruct (StringToNumber s) as [ts|]; [destruct (now - ts <? _) |]; simpl;
      split; congruence.
Qed.

(** C5: [isCacheValid] returns [true] exactly when the storage holds a last
    fetch time, a non-empty string that reads as a number, and the clock is
    less than 15 * 60 * 1000 ms past it; in every other case its value is
    falsy. After a write that completed at [t0] it returns [true] at [t0] and
    [false] from fifteen minutes later on. *)
Theorem cache_ttl_validity :
  (forall (st : gmap string string) (now : Z),
      isCacheValid st now = JBool true <->
      exists s ts, st !! LAST_FETCH = Some s /\ s <> "" /\
                   StringToNumber s = Some ts /\ now - ts < 15 * 60 * 1000) /\
  (forall (st : gmap string string) (now : Z),
      truthy (isCacheValid st now) = true <-> isCacheValid st now = JBool true) /\
  (forall (rides profile : json) (t0 : Z) (w : World),
      NumberToString t0 <> "" ->
      StringToNumber (NumberToString t0) = Some t0 ->
      SetItem LAST_FETCH (NumberToString t0) ∈ issued (setCacheData rides profile t0) w ->
      let st' := localStorage (fst (setCacheData rides profile t0 w)) in
      isCacheValid st' t0 = JBool true /\
      forall now, t0 + 15 * 60 * 1000 <= now -> isCacheValid st' now = JBool false).
Proof.
  split_and!.
  - apply isCacheValid_true.
  - apply truthy_isCacheValid.
  - intros rides profile t0 w Hne Hrt Hin st'. subst st'.
    rewrite (setCacheData_complete _ _ _ _ Hin).
    apply String.eqb_neq in Hne.
    split.
    + apply isCacheValid_true. exists (NumberToString t0), t0.
      rewrite lookup_insert_eq. apply String.eqb_neq in Hne. split_and!; try done. lia.
    + intros now Hnow. unfold isCacheValid, CACHE_EXPIRATION.
      rewrite lookup_insert_eq. simpl. rewrite Hne, Hrt. simpl.
      f_equal. apply Z.ltb_ge. lia.
Qed.

Lemma parse_item_missing (st : gmap string string) (key : string) :
  JSON_parse "null" = Some JNull -> st !! key = None -> parse_item st key = Ok JNull.
Proof. intros Hnull Hk. unfold parse_item. by rewrite Hk, Hnull. Qed.

(** C6: [getCachedData] is a total function, it has no exceptional outcome.
    It returns the two parsed values when both stored texts parse, hence the
    snapshot of the last completed write when the host reads back what it
    printed; and it returns [{rides: null, profile: null}] when the storage
    has neither item and when either stored text does not parse, so that a
    corrupt cache reads the same as an empty one. *)
Theorem getCachedData_read (st : gmap string string) :
  JSON_parse "null" = Some JNull ->
  (forall sr sp r p,
      st !! RIDES = Some sr -> st !! PROFILE = Some sp ->
      JSON_parse sr = Some r -> JSON_parse sp = Some p ->
      getCachedData st = mkCached r p) /\
  (st !! RIDES = None -> st !! PROFILE = None -> getCachedData st = mkCached JNull JNull) /\
  (forall s, (st !! RIDES = Some s \/ st !! PROFILE = Some s) -> JSON_parse s = None ->
             getCachedData st = mkCached JNull JNull) /\
  (forall (rides profile : json) (now : Z) (w : World),
      JSON_parse (JSON_stringify rides) = Some rides ->
      JSON_parse (JSON_stringify profile) = Some profile ->
      SetItem LAST_FETCH (NumberToString now) ∈ issued (setCacheData rides profile now) w ->
      getCachedData (localStorage (fst (setCacheData rides profile now w)))
      = mkCached rides profile).
Proof.
  intros Hnull. split_and!.
  - intros sr sp r p Er Ep Pr Pp. unfold getCachedData, parse_item.
    by rewrite Er, Ep, Pr, Pp.
  - intros Er Ep. unfold getCachedData.
    by rewrite !parse_item_missing.
  - intros s [Es | Es] Ps; unfold getCachedData, parse_item.
    + by rewrite Es, Ps.
    + rewrite Es, Ps. simpl.
      destruct (JSON_parse match st !! RIDES with Some s0 => s0 | None => "null" end);
        done.
  - intros rides profile now w Pr Pp Hin.
    rewrite (setCacheData_complete _ _ _ _ Hin).
    unfold getCachedData, parse_item.
    destruct keys_distinct as (Hrp & Hrl & Hpl).
    rewrite (lookup_insert_ne _ LAST_FETCH RIDES), (lookup_insert_ne _ PROFILE RIDES),
      lookup_insert_eq by done.
    rewrite (lookup_insert_ne _ LAST_FETCH PROFILE), lookup_insert_eq by done.
    by rewrite Pr, Pp.
Qed.

End CacheProperties.

(** ** The refresh *)

Section FetchProperties.
Context `{Host}.
Import CACHE_KEYS.

Lemma serveFromCache_eq (c : Clock) (w : World) :
  serveFromCache c w =
  if gate (localStorage w) (atCheck c)
  then (with_loading false (with_rides (rides (getCachedData (localStorage w))) w), Ok true)
  else (w, Ok false).
Proof.
  unfold serveFromCache, gate, mbind, Eff_bind, read. simpl.
  destruct (truthy (isCacheValid _ _)); simpl; [| done].
  destruct (truthy (rides _) && truthy (profile _)); done.
Qed.

Lemma setCacheData_trace (r p : json) (now : Z) (w : World) :
  exists more, trace (fst (setCacheData r p now w)) = trace w ++ more
               /\ snd (setCacheData r p now w) = Ok tt.
Proof.
  destruct (setCacheData_cases r p now w) as (Hs & _ & _ & Hc).
  destruct Hc as [[Et _] | [[Et _] | [[Et _] | [Et _]]]]; eauto.
Qed.

(** The network path starts with the profile query. *)
Lemma fetchFromNetwork_trace (b : Backend) (c : Clock) (w : World) :
  exists rest, trace (fst (fetchFromNetwork b c w)) = trace w ++ Query QProfile :: rest.
Proof.
  unfold fetchFromNetwork, mbind, Eff_bind, await, lift, setRides, modify, mret, Eff_ret.
  destruct (profileReply b) as [p|]; simpl; [| by eexists].
  destruct (error p || negb (truthy (data p))); simpl; [by eexists |].
  destruct (truthy (get_prop "gender" (data p))); simpl; [| by eexists].
  destruct (myRidesReply b) as [mine|]; simpl;
    [| eexists; by rewrite <- app_assoc].
  destruct (ridesReply b) as [others|]; simpl;
    [| eexists; by rewrite <- !app_assoc].
  destruct (error others); simpl; [eexists; by rewrite <- !app_assoc |].
  destruct (matchedRides _ _) as [matched|e]; simpl;
    [| eexists; by rewrite <- !app_assoc].
  match goal with
  | |- context [setCacheData ?r ?p ?n ?w0] =>
      destruct (setCacheData_trace r p n w0) as (more & Et & Es);
      destruct (setCacheData r p n w0) as [w1 res]
  end.
  simpl in *. subst res. simpl. rewrite Et. simpl.
  eexists. by rewrite <- !app_assoc.
Qed.

Lemma fetchData_served (b : Backend) (c : Clock) (w : World) :
  gate (localStorage w) (atCheck c) = true ->
  fetchData b c w =
  (with_loading false
     (with_loading false
        (with_rides (rides (getCachedData (localStorage w))) (with_loading true w))),
   Ok tt).
Proof.
  intros Hg.
  unfold fetchData, try_finally, try_catch, tryBlock, mbind, Eff_bind.
  unfold setLoading at 1. unfold modify. rewrite serveFromCache_eq. simpl.
  by rewrite Hg.
Qed.

Lemma fetchData_network (b : Backend) (c : Clock) (w : World) :
  gate (localStorage w) (atCheck c) = false ->
  exists rest, trace (fst (fetchData b c w)) = trace w ++ Query QProfile :: rest.
Proof.
  intros Hg.
  unfold fetchData, try_finally, try_catch, tryBlock, mbind, Eff_bind.
  unfold setLoading at 1. unfold modify. rewrite serveFromCache_eq. simpl.
  rewrite Hg.
  destruct (fetchFromNetwork_trace b c (with_loading true w)) as (rest & Et).
  destruct (fetchFromNetwork b c (with_loading true w)) as [w1 [[]|e]]; simpl in *.
  - by exists rest.
  - unfold onError, mbind, Eff_bind, read, setRides, modify, mret, Eff_ret. simpl.
    destruct (truthy (rides (getCachedData (localStorage w1)))); simpl; by exists rest.
Qed.


Lemma tryBlock_typed (b : Backend) (c : Clock) (w : World)
    (myRides candidateRides : list Ride) :
  answers b myRides candidateRides ->
  Forall route_typed myRides -> Forall route_typed candidateRides ->
  snd (tryBlock b c w) = Ok tt.
Proof.
  intros ([p Ep] & (mine & Em & Dm) & (others & Eo & Do)) Hmy Hc.
  destruct (matchedRides_typed _ _ Hmy Hc) as (matched & Ematch & _).
  unfold tryBlock, mbind, Eff_bind. unfold setLoading at 1. unfold modify.
  rewrite serveFromCache_eq. simpl.
  destruct (gate _ _); simpl; [done |].
  unfold fetchFromNetwork, mbind, Eff_bind, await, lift, setRides, modify, mret, Eff_ret.
  rewrite Ep, Em, Eo. simpl.
  destruct (error p || negb (truthy (data p))); simpl; [done |].
  destruct (truthy (get_prop "gender" (data p))); simpl; [| done].
  destruct (error others); simpl; [done |].
  rewrite Dm, Do, Ematch. simpl.
  match goal with
  | |- context [setCacheData ?r ?q ?n ?w0] =>
      destruct (setCacheData_trace r q n w0) as (more & _ & Es);
      destruct (setCacheData r q n w0) as [w1 res]
  end.
  simpl in *. by subst res.
Qed.

(** C3 as the code has it: when every origin and destination is a string the
    match returns normally whatever the time fields hold, a ride without a
    time property is never retained and never makes a pair match, and a
    refresh whose queries are answered with such lists completes its [try]
    block without an exception, so its [catch] branch is not entered. *)
Theorem typed_routes_never_throw (myRides candidateRides : list Ride) (clock : nat -> Z) :
  Forall route_typed myRides -> Forall route_typed candidateRides ->
  (exists out,
     matchRides myRides candidateRides clock = Ok out /\
     (forall c, c ∈ out -> time c <> VUndefined) /\
     (forall m c, m ∈ myRides -> c ∈ candidateRides ->
                  time m = VUndefined \/ time c = VUndefined ->
                  matchCallback c m = Ok false)) /\
  (forall (b : Backend) (c : Clock) (w : World),
     answers b myRides candidateRides ->
     snd (tryBlock b c w) = Ok tt /\
     fetchData b c w = (with_loading false (fst (tryBlock b c w)), Ok tt)).
Proof.
  intros Hmy Hc. split.
  - destruct (matchedRides_typed _ _ Hmy Hc) as (matched & Em & Hmem & _).
    unfold matchRides. rewrite Em. simpl. eexists. split; [reflexivity |].
    assert (sortedRides clock matched ≡ₚ matched) as Hp by apply Array_sort_perm.
    split.
    + intros c Hin Ht. rewrite Hp in Hin.
      apply Hmem in Hin as (_ & m & _ & _ & _ & t1 & t2 & _ & E2 & _).
      rewrite Ht in E2. discriminate.
    + intros m c Hm Hcin Ht. rewrite Forall_forall in Hmy, Hc.
      destruct (matchCallback_typed m c (Hmy _ Hm) (Hc _ Hcin)) as (b & Eb & Hb).
      rewrite Eb. destruct b; [| done].
      destruct Hb as [Hb _]. destruct (Hb eq_refl) as (_ & _ & t1 & t2 & E1 & E2 & _).
      destruct Ht as [Ht | Ht]; [rewrite Ht in E1 | rewrite Ht in E2]; discriminate.
  - intros b c w Ha.
    pose proof (tryBlock_typed b c w _ _ Ha Hmy Hc) as Hok.
    split; [done |].
    unfold fetchData, try_finally, try_catch.
    destruct (tryBlock b c w) as [w1 r]. simpl in *. subst r. done.
Qed.

End FetchProperties.

(** ** The service worker *)

Section WorkerProperties.
Context `{Host}.

Lemma lookup_update_cache_eq (name : string) (c : gmap string Stored)
    (cs : list (string * gmap string Stored)) :
  lookup_cache name (update_cache name c cs) = Some c.
Proof.
  induction cs as [|[n c'] cs IH]; simpl.
  - by rewrite String.eqb_refl.
  - destruct (String.eqb n name) eqn:E; simpl; by rewrite E.
Qed.

Lemma lookup_update_cache_ne (name name' : string) (c : gmap string Stored)
    (cs : list (string * gmap string Stored)) :
  name' <> name ->
  lookup_cache name' (update_cache name c cs) = lookup_cache name' cs.
Proof.
  intros Hne. induction cs as [|[n c'] cs IH]; simpl.
  - apply String.eqb_neq in Hne. rewrite String.eqb_sym. by rewrite Hne.
  - destruct (String.eqb n name) eqn:E; simpl.
    + apply String.eqb_eq in E. subst n.
      assert (String.eqb name name' = false) as ->; [| done].
      apply String.eqb_neq. congruence.
    + by rewrite IH.
Qed.

Lemma lookup_cache_app (name : string) (cs cs' : list (string * gmap string Stored)) :
  lookup_cache name (cs ++ cs') =
  match lookup_cache name cs with
  | Some c => Some c
  | None => lookup_cache name cs'
  end.
Proof.
  induction cs as [|[n c] cs IH]; simpl; [done |].
  by destruct (String.eqb n name).
Qed.

(** Opening a cache adds no entry. *)
Lemma entry_caches_open (name n u : string) (w : Worker) :
  entry n u (caches_open name w) = entry n u w.
Proof.
  unfold entry, caches_open.
  destruct (lookup_cache name (caches w)) eqn:E; [done |]. simpl.
  rewrite lookup_cache_app. destruct (lookup_cache n (caches w)) eqn:En; [done |].
  simpl. destruct (String.eqb name n); simpl; [| done].
  by rewrite lookup_empty.
Qed.

Lemma streams_caches_open (name : string) (w : Worker) :
  streams (caches_open name w) = streams w.
Proof. unfold caches_open. by destruct (lookup_cache name (caches w)). Qed.

Lemma consume_fresh (st : Z) (body : string) (w : Worker) :
  exists w', consume (fst (newResponse st body w)) (snd (newResponse st body w))
             = (Ok body, w').
Proof.
  unfold consume, newResponse. simpl.
  rewrite list_lookup_middle by done. by eexists.
Qed.

Lemma caches_match_delivered (request : Request) (w : Worker) :
  delivered (RespondWith (Fulfilled (fst (caches_match request w))),
             snd (caches_match request w))
  = answer <$> stored_match request w.
Proof.
  unfold caches_match. destruct (stored_match request w) as [e|]; simpl; [| done].
  unfold consume. simpl. by rewrite list_lookup_middle.
Qed.

Lemma caches_match_caches (request : Request) (w : Worker) :
  caches (snd (caches_match request w)) = caches w.
Proof. unfold caches_match. by destruct (stored_match request w). Qed.

Lemma caches_match_none (request : Request) (w : Worker) :
  stored_match request w = None -> caches_match request w = (None, w).
Proof. unfold caches_match. by intros ->. Qed.

Lemma onFetch_api (request : Request) (network : option (Z * string)) (w : Worker) :
  startsWith (url request) origin = true ->
  includes (url request) "/api/" = true ->
  onFetch request network w =
  match network with
  | Some (st, body) =>
      (RespondWith (Fulfilled (Some (fst (newResponse st body w)))),
       snd (newResponse st body w))
  | None =>
      (RespondWith (Fulfilled (fst (caches_match request w))),
       snd (caches_match request w))
  end.
Proof.
  intros Ho Ha. unfold onFetch. rewrite Ho, Ha. simpl.
  destruct network as [[st body]|]; [done |].
  by destruct (caches_match request w).
Qed.

(** C7 as the code has it: a request of the origin whose URL contains /api/
    goes to the network first and the handler leaves every cache as it was,
    whether the network answers or not. When the network fails the handler
    answers with the entry the caches already hold for the request, and with
    no response when they hold none; so after an answered request followed by
    a failed one the page gets what the caches held before the first of the
    two, not the first response. *)
Theorem api_network_only (request : Request) (w : Worker) :
  startsWith (url request) origin = true ->
  includes (url request) "/api/" = true ->
  (forall st body,
      delivered (onFetch request (Some (st, body)) w) = Some (st, body) /\
      caches (snd (onFetch request (Some (st, body)) w)) = caches w) /\
  (delivered (onFetch request None w) = answer <$> stored_match request w /\
   caches (snd (onFetch request None w)) = caches w /\
   (stored_match request w = None ->
    onFetch request None w = (RespondWith (Fulfilled None), w))) /\
  (forall st body,
      delivered (onFetch request None (snd (onFetch request (Some (st, body)) w)))
      = answer <$> stored_match request w).
Proof.
  intros Ho Ha. split_and!.
  - intros st body. rewrite (onFetch_api _ _ _ Ho Ha). split; [| done].
    unfold delivered. by destruct (consume_fresh st body w) as [w' ->].
  - rewrite (onFetch_api _ _ _ Ho Ha). apply caches_match_delivered.
  - rewrite (onFetch_api _ _ _ Ho Ha). apply caches_match_caches.
  - intros Hn. rewrite (onFetch_api _ _ _ Ho Ha). by rewrite caches_match_none.
  - intros st body. rewrite !(onFetch_api _ _ _ Ho Ha).
    rewrite caches_match_delivered. done.
Qed.

Lemma onFetch_response (request : Request) (st : Z) (body : string) (w : Worker) :
  startsWith (url request) origin = true ->
  includes (url request) "/api/" = false ->
  onFetch request (Some (st, body)) w =
  (RespondWith (Fulfilled (Some (mkResponse st (length (streams w))))),
   after_response request st body w).
Proof.
  intros Ho Ha. unfold onFetch. rewrite Ho, Ha. simpl.
  unfold onResponse, clone, newResponse. simpl.
  rewrite list_lookup_middle by done. simpl.
  unfold after_response, cache_put, consume, caches_open. simpl.
  destruct (String.eqb (method request) "GET" && (st =? 200)) eqn:E.
  - apply andb_true_iff in E as [_ E]. apply Z.eqb_eq in E. subst st.
    set (s1 := streams w ++ [mkStream body false]).
    assert ((s1 ++ [mkStream body false]) !! length s1 = Some (mkStream body false)) as Hl
      by by apply list_lookup_middle.
    assert (<[length s1 := mkStream body true]> (s1 ++ [mkStream body false])
            = streams w ++ [mkStream body false; mkStream body true]) as Hi.
    { rewrite insert_app_r_alt by lia. rewrite Nat.sub_diag. simpl.
      unfold s1. by rewrite <- app_assoc. }
    destruct (lookup_cache CACHE_NAME (caches w)) eqn:Ec; simpl;
      rewrite Hl; simpl; rewrite Hi;
      match goal with |- context [cache_refuses ?cs ?es] =>
        destruct (cache_refuses cs es) end; done.
  - destruct (lookup_cache CACHE_NAME (caches w)); simpl;
      by rewrite <- app_assoc.
Qed.

Lemma entry_after_response (request : Request) (st : Z) (body : string) (w : Worker) :
  if String.eqb (method request) "GET" && (st =? 200)
  then
    match cache_refuses (caches (caches_open CACHE_NAME w))
            [(url request, mkStored st body)] with
    | None =>
        entry CACHE_NAME (url request) (after_response request st body w)
        = Some (mkStored st body) /\
        forall n u, n <> CACHE_NAME \/ u <> url request ->
                    entry n u (after_response request st body w) = entry n u w
    | Some _ => forall n u, entry n u (after_response request st body w) = entry n u w
    end
  else forall n u, entry n u (after_response request st body w) = entry n u w.
Proof.
  unfold after_response.
  destruct (String.eqb (method request) "GET" && (st =? 200)).
  - destruct (cache_refuses _ _).
    { intros n u. rewrite <- (entry_caches_open CACHE_NAME n u w). done. }
    split.
    + unfold entry. simpl. rewrite lookup_update_cache_eq. simpl.
      apply lookup_insert_eq.
    + intros n u Hne. rewrite <- (entry_caches_open CACHE_NAME n u w).
      unfold entry. simpl.
      destruct (decide (n = CACHE_NAME)) as [-> | Hn].
      * rewrite lookup_update_cache_eq. simpl.
        destruct Hne as [Hne | Hne]; [done |].
        rewrite lookup_insert_ne by done.
        destruct (lookup_cache CACHE_NAME (caches (caches_open CACHE_NAME w))); simpl;
          [done | apply lookup_empty].
      * by rewrite lookup_update_cache_ne.
  - intros n u. rewrite <- (entry_caches_open CACHE_NAME n u w). done.
Qed.

Lemma onFetch_failure (request : Request) (w : Worker) :
  startsWith (url request) origin = true ->
  includes (url request) "/api/" = false ->
  onFetch request None w =
  (RespondWith (Fulfilled (fst (onFailure request w))), snd (onFailure request w)).
Proof.
  intros Ho Ha. unfold onFetch. rewrite Ho, Ha. simpl.
  by destruct (onFailure request w).
Qed.

(** C8 as the code has it: for a request of the origin outside /api/. When
    the network answers, the page receives that response with its body
    unread; exactly when the method is GET and the status 200 a clone is put
    into the named cache, and the cache then holds an entry for the request
    URL with the status and body of the response unless the storage refuses
    the write, in which case, as for every other answer, no entry of any
    cache changes. When the network fails no cache changes and the page
    receives the entry the caches hold for the request; without one, a
    navigation request receives the cached /index.html (nothing when that is
    not cached either) and any other request receives no response. *)
Theorem network_first (request : Request) (w : Worker) :
  startsWith (url request) origin = true ->
  includes (url request) "/api/" = false ->
  (forall st body,
      exists r w',
        onFetch request (Some (st, body)) w = (RespondWith (Fulfilled (Some r)), w') /\
        status r = st /\ streams w' !! stream r = Some (mkStream body false) /\
        delivered (onFetch request (Some (st, body)) w) = Some (st, body) /\
        if String.eqb (method request) "GET" && (st =? 200)
        then
          streams w' !! S (stream r) = Some (mkStream body true) /\
          match cache_refuses (caches (caches_open CACHE_NAME w))
                  [(url request, mkStored st body)] with
          | None =>
              entry CACHE_NAME (url request) w' = Some (mkStored st body) /\
              forall n u, n <> CACHE_NAME \/ u <> url request -> entry n u w' = entry n u w
          | Some _ => forall n u, entry n u w' = entry n u w
          end
        else
          streams w' !! S (stream r) = Some (mkStream body false) /\
          forall n u, entry n u w' = entry n u w) /\
  caches (snd (onFetch request None w)) = caches w /\
  match stored_match request w with
  | Some e => delivered (onFetch request None w) = Some (answer e)
  | None =>
      if String.eqb (mode request) "navigate"
      then delivered (onFetch request None w) = answer <$> stored_match indexRequest w /\
           (stored_match indexRequest w = None ->
            onFetch request None w = (RespondWith (Fulfilled None), w))
      else onFetch request None w = (RespondWith (Fulfilled None), w)
  end.
Proof.
  intros Ho Ha. split_and!.
  - intros st body. rewrite (onFetch_response _ _ _ _ Ho Ha).
    eexists _, _. split; [reflexivity |]. simpl.
    pose proof (entry_after_response request st body w) as He.
    assert (forall b, (streams w ++ [mkStream body false; mkStream body b])
                        !! length (streams w) = Some (mkStream body false)) as Hl
      by (intros b; by apply list_lookup_middle).
    assert (forall b, (streams w ++ [mkStream body false; mkStream body b])
                        !! S (length (streams w)) = Some (mkStream body b)) as Hl'.
    { intros b. rewrite lookup_app_r by lia.
      by replace (S (length (streams w)) - length (streams w))%nat with 1%nat by lia. }
    assert (streams (after_response request st body w) !! length (streams w)
            = Some (mkStream body false)) as Hs.
    { unfold after_response. destruct (_ && _); [destruct (cache_refuses _ _) |];
        simpl; apply Hl. }
    split_and!; [done | done | |].
    + unfold consume. simpl. by rewrite Hs.
    + destruct (String.eqb (method request) "GET" && (st =? 200)) eqn:E.
      * split; [| done].
        unfold after_response. rewrite E. destruct (cache_refuses _ _); simpl; apply Hl'.
      * split; [| done]. unfold after_response. rewrite E. simpl. apply Hl'.
  - rewrite (onFetch_failure _ _ Ho Ha). unfold onFailure.
    pose proof (caches_match_caches request w) as Hc.
    destruct (caches_match request w) as [[r|] w1]; simpl in *; [done |].
    destruct (String.eqb (mode request) "navigate"); [| done].
    rewrite caches_match_caches. done.
  - rewrite (onFetch_failure _ _ Ho Ha). unfold onFailure.
    destruct (stored_match request w) as [e|] eqn:Em.
    + pose proof (caches_match_delivered request w) as Hd. rewrite Em in Hd.
      unfold caches_match in *. rewrite Em in *. simpl in *. done.
    + rewrite (caches_match_none _ _ Em).
      destruct (String.eqb (mode request) "navigate").
      * split; [apply caches_match_delivered |].
        intros Hi. by rewrite (caches_match_none _ _ Hi).
      * done.
Qed.

End WorkerProperties.

(** ** The properties on the example data *)

Section Examples.
Import TestHost Ex.
Existing Instance utc.

Lemma typed_examples :
  Forall route_typed [mine] /\ Forall route_typed candidates.
Proof. split; repeat constructor; by eexists _, _. Defined.

(** The candidates exactly thirty minutes and fifteen minutes away are kept,
    the nearer one first; the one a second further, the reverse route and the
    unreadable time are not. *)
Example match_example :
  matchedRides [mine] candidates = Ok [at_30min; before_15min] /\
  matchRides [mine] candidates (steady T0) = Ok [before_15min; at_30min].
Proof. split; vm_compute; reflexivity. Qed.

Lemma match_filter_membership_witness :
  exists out,
    matchRides [mine] candidates (steady T0) = Ok out /\
    (forall c, c ∈ out <->
               c ∈ candidates /\ exists m, m ∈ [mine] /\ spec_matches m c) /\
    out ⊆+ candidates /\
    ([mine] = [] \/ candidates = [] -> out = []).
Proof.
  apply (match_filter_membership [mine] candidates (steady T0)).
  - exact (proj1 typed_examples).
  - exact (proj2 typed_examples).
Defined.

(** Candidates at +10, +40 and -5 minutes come out as -5, +10, +40. *)
Example order_example :
  matchRides [plus_10 1; plus_40 2; minus_5 3] [plus_10 11; plus_40 12; minus_5 13]
             (steady T0)
  = Ok [minus_5 13; plus_10 11; plus_40 12].
Proof. vm_compute. reflexivity. Qed.

(** Candidates ten minutes before and after now stay in input order. *)
Example tie_example :
  matchRides [plus_10 1; minus_10 2] [plus_10 11; minus_10 12; plus_10 13] (steady T0)
  = Ok [plus_10 11; minus_10 12; plus_10 13] /\
  matchRides [plus_10 1; minus_10 2] [minus_10 12; plus_10 13; plus_10 11] (steady T0)
  = Ok [minus_10 12; plus_10 13; plus_10 11].
Proof. split; vm_compute; reflexivity. Qed.

Lemma sorted_by_proximity_witness :
  let matched := [plus_10 11; plus_40 12; minus_5 13] in
  sortedRides (steady T0) matched ≡ₚ matched /\
  Sorted (fun a b => distance T0 a <= distance T0 b) (sortedRides (steady T0) matched) /\
  (forall d, List.filter (fun r => distance T0 r =? d) (sortedRides (steady T0) matched)
             = List.filter (fun r => distance T0 r =? d) matched) /\
  (forall l',
      Sorted (fun a b => distance T0 a <= distance T0 b) l' ->
      (forall d, List.filter (fun r => distance T0 r =? d) l'
                 = List.filter (fun r => distance T0 r =? d) matched) ->
      l' = sortedRides (steady T0) matched).
Proof.
  apply (sorted_by_proximity [plus_10 1; plus_40 2; minus_5 3]
           [plus_10 11; plus_40 12; minus_5 13] _ (steady T0) T0).
  - vm_compute. reflexivity.
  - intros k. reflexivity.
Defined.

(** A null origin makes the route comparison throw; the refresh lands in its
    catch branch and shows the stale cached rides. *)
Lemma null_origin_throws :
  from no_origin = VNull /\
  matchRides [no_origin] [at_30min] (steady T0) = Throw TypeError /\
  matchRides [mine] [no_origin] (steady T0) = Throw TypeError /\
  snd (tryBlock (backend [no_origin] [at_30min]) (clock_at T0) stale) = Throw TypeError /\
  rides_state (fst (fetchData (backend [no_origin] [at_30min]) (clock_at T0) stale))
  = JArray [JObject [("id", JNumber 9)]].
Proof. split_and!; vm_compute; reflexivity. Qed.

(** [new Date(null)] is the epoch: two rides with a null time match. *)
Example null_times_match :
  matchRides [null_time 1] [null_time 2] (steady T0) = Ok [null_time 2].
Proof. vm_compute. reflexivity. Qed.

Lemma typed_routes_never_throw_witness :
  (exists out,
     matchRides [mine] candidates (steady T0) = Ok out /\
     (forall c, c ∈ out -> time c <> VUndefined) /\
     (forall m c, m ∈ [mine] -> c ∈ candidates ->
                  time m = VUndefined \/ time c = VUndefined ->
                  matchCallback c m = Ok false)) /\
  (forall (b : Backend) (c : Clock) (w : World),
     answers b [mine] candidates ->
     snd (tryBlock b c w) = Ok tt /\
     fetchData b c w = (with_loading false (fst (tryBlock b c w)), Ok tt)).
Proof.
  apply (typed_routes_never_throw [mine] candidates (steady T0)).
  - exact (proj1 typed_examples).
  - exact (proj2 typed_examples).
Defined.

Lemma malformed_time_is_no_match_witness :
  isSameDay (time mine) (time bad_time) = false /\
  isTimeWithinRange (time mine) (time bad_time) 30 = false /\
  matchCallback bad_time mine <> Ok true.
Proof.
  apply (malformed_time_is_no_match mine bad_time
           "2024-05-01T10:00:00Z" "tomorrow morning").
  - reflexivity.
  - reflexivity.
  - right. vm_compute. reflexivity.
Defined.

(** A refresh at [T0] writes the three items; the cache is valid until
    fifteen minutes later, exclusive. *)
Example ttl_example :
  trace cached =
  [Query QProfile; Query QMyRides; Query QRides;
   SetItem CACHE_KEYS.RIDES (stringify (rides_to_json [before_15min; at_30min]));
   SetItem CACHE_KEYS.PROFILE (stringify a_profile);
   SetItem CACHE_KEYS.LAST_FETCH "1714557600000"] /\
  isCacheValid (localStorage cached) T0 = JBool true /\
  isCacheValid (localStorage cached) (T0 + minutes 15 - 1) = JBool true /\
  isCacheValid (localStorage cached) (T0 + minutes 15) = JBool false /\
  isCacheValid (localStorage fresh) T0 = JNull.
Proof. split_and!; vm_compute; reflexivity. Qed.

Lemma write_example :
  SetItem CACHE_KEYS.LAST_FETCH (NumberToString T0)
  ∈ issued (setCacheData (rides_to_json [at_30min]) a_profile T0) fresh.
Proof.
  assert (issued (setCacheData (rides_to_json [at_30min]) a_profile T0) fresh
          = [SetItem CACHE_KEYS.RIDES (stringify (rides_to_json [at_30min]));
             SetItem CACHE_KEYS.PROFILE (stringify a_profile);
             SetItem CACHE_KEYS.LAST_FETCH (NumberToString T0)]) as ->
    by (vm_compute; reflexivity).
  do 2 right. left.
Defined.

Lemma cache_ttl_validity_witness :
  let st' := localStorage (fst (setCacheData (rides_to_json [at_30min]) a_profile T0 fresh)) in
  isCacheValid st' T0 = JBool true /\
  forall now, T0 + 15 * 60 * 1000 <= now -> isCacheValid st' now = JBool false.
Proof.
  destruct cache_ttl_validity as (_ & _ & Hwrite).
  apply (Hwrite (rides_to_json [at_30min]) a_profile T0 fresh).
  - vm_compute. discriminate.
  - vm_compute. reflexivity.
  - exact write_example.
Defined.

(** A stored text that is not JSON reads as an empty cache. *)
Example corrupt_example :
  getCachedData (<[CACHE_KEYS.RIDES := "{oops"]> (localStorage cached))
  = mkCached JNull JNull /\
  getCachedData (<[CACHE_KEYS.PROFILE := "<html>"]> (localStorage cached))
  = mkCached JNull JNull /\
  getCachedData ∅ = mkCached JNull JNull /\
  getCachedData (localStorage cached)
  = mkCached (rides_to_json [before_15min; at_30min]) a_profile.
Proof. split_and!; vm_compute; reflexivity. Qed.

Lemma getCachedData_read_witness :
  let st := <[CACHE_KEYS.RIDES := "{oops"]> (localStorage cached) in
  (forall sr sp r p,
      st !! CACHE_KEYS.RIDES = Some sr -> st !! CACHE_KEYS.PROFILE = Some sp ->
      JSON_parse sr = Some r -> JSON_parse sp = Some p ->
      getCachedData st = mkCached r p) /\
  (st !! CACHE_KEYS.RIDES = None -> st !! CACHE_KEYS.PROFILE = None ->
   getCachedData st = mkCached JNull JNull) /\
  (forall s, (st !! CACHE_KEYS.RIDES = Some s \/ st !! CACHE_KEYS.PROFILE = Some s) ->
             JSON_parse s = None -> getCachedData st = mkCached JNull JNull) /\
  (forall (rides profile : json) (now : Z) (w : World),
      JSON_parse (JSON_stringify rides) = Some rides ->
      JSON_parse (JSON_stringify profile) = Some profile ->
      SetItem CACHE_KEYS.LAST_FETCH (NumberToString now)
      ∈ issued (setCacheData rides profile now) w ->
      getCachedData (localStorage (fst (setCacheData rides profile now w)))
      = mkCached rides profile).
Proof.
  apply (getCachedData_read (<[CACHE_KEYS.RIDES := "{oops"]> (localStorage cached))).
  vm_compute. reflexivity.
Defined.

(** A refresh one minute after the cached one serves the cache and asks the
    backend nothing; at fifteen minutes, or with a corrupt profile, it goes to
    the network. *)
Example gate_example :
  issued (fetchData (backend [mine] candidates) (clock_at (T0 + minutes 1))) cached = [] /\
  rides_state (fst (fetchData (backend [mine] []) (clock_at (T0 + minutes 1)) cached))
  = rides_to_json [before_15min; at_30min] /\
  head (issued (fetchData (backend [mine] candidates) (clock_at (T0 + minutes 15))) cached)
  = Some (Query QProfile) /\
  head (issued (fetchData (backend [mine] candidates) (clock_at (T0 + minutes 1)))
          (with_storage (<[CACHE_KEYS.PROFILE := "<html>"]> (localStorage cached)) cached))
  = Some (Query QProfile).
Proof. split_and!; vm_compute; reflexivity. Qed.


Lemma setCacheData_ordered_witness :
  let w' := fst (setCacheData (rides_to_json [at_30min]) a_profile T0 fresh) in
  SetItem CACHE_KEYS.LAST_FETCH (NumberToString T0)
  ∈ issued (setCacheData (rides_to_json [at_30min]) a_profile T0) fresh /\
  localStorage w' !! CACHE_KEYS.RIDES = Some (JSON_stringify (rides_to_json [at_30min])) /\
  localStorage w' !! CACHE_KEYS.PROFILE = Some (JSON_stringify a_profile) /\
  localStorage w' !! CACHE_KEYS.LAST_FETCH = Some (NumberToString T0).
Proof.
  destruct (setCacheData_ordered (rides_to_json [at_30min]) a_profile T0 fresh)
    as (_ & _ & _ & Hiff & Hin & _).
  assert (SetItem CACHE_KEYS.LAST_FETCH (NumberToString T0)
          ∈ issued (setCacheData (rides_to_json [at_30min]) a_profile T0) fresh) as Hw.
  { apply Hiff. vm_compute. reflexivity. }
  split; [exact Hw | exact (Hin Hw)].
Defined.

(** With room for 120 characters the rides fit and the profile does not: the
    write stops there and the time stamp is not written. *)
Example quota_example :
  trace (fst (setCacheData (H := host 0 120) (rides_to_json [at_30min]) a_profile T0 fresh))
  = [SetItem CACHE_KEYS.RIDES (stringify (rides_to_json [at_30min]));
     SetItemFailed CACHE_KEYS.PROFILE] /\
  localStorage (fst (setCacheData (H := host 0 120) (rides_to_json [at_30min])
                       a_profile T0 fresh)) !! CACHE_KEYS.LAST_FETCH = None.
Proof. split; vm_compute; reflexivity. Qed.

(** An answered request under /api/ followed by a failed one: the page gets
    no response, the first answer was not kept. *)
Lemma api_answer_not_cached :
  includes (url api_request) "/api/" = true /\
  delivered (onFetch api_request (Some (200, "first")) installed) = Some (200, "first") /\
  onFetch api_request None (snd (onFetch api_request (Some (200, "first")) installed))
  = (RespondWith (Fulfilled None), snd (onFetch api_request (Some (200, "first")) installed)) /\
  delivered (onFetch api_request None
               (snd (onFetch api_request (Some (200, "first")) installed)))
  <> Some (200, "first").
Proof. split_and!; vm_compute; (reflexivity || discriminate). Qed.

Lemma api_network_only_witness :
  (forall st body,
      delivered (onFetch api_request (Some (st, body)) installed) = Some (st, body) /\
      caches (snd (onFetch api_request (Some (st, body)) installed)) = caches installed) /\
  (delivered (onFetch api_request None installed)
   = answer <$> stored_match api_request installed /\
   caches (snd (onFetch api_request None installed)) = caches installed /\
   (stored_match api_request installed = None ->
    onFetch api_request None installed = (RespondWith (Fulfilled None), installed))) /\
  (forall st body,
      delivered (onFetch api_request None
                   (snd (onFetch api_request (Some (st, body)) installed)))
      = answer <$> stored_match api_request installed).
Proof.
  apply (api_network_only api_request installed).
  - vm_compute. reflexivity.
  - vm_compute. reflexivity.
Defined.

(** An asset answered once is served from the cache when the network fails;
    a failed navigation falls back to the root document; a failed POST and a
    failed request for an asset never seen get no response. *)
Example asset_fallback_example :
  delivered (onFetch asset_request None
               (snd (onFetch asset_request (Some (200, "js")) installed)))
  = Some (200, "js") /\
  delivered (onFetch asset_request None
               (snd (onFetch asset_request (Some (404, "no")) installed)))
  = None /\
  delivered (onFetch page_request None installed) = Some (200, "<html>") /\
  fst (onFetch asset_request None installed) = RespondWith (Fulfilled None) /\
  fst (onFetch post_request None
         (snd (onFetch post_request (Some (200, "ok")) installed)))
  = RespondWith (Fulfilled None).
Proof. split_and!; vm_compute; reflexivity. Qed.

Lemma network_first_witness :
  exists r w',
    onFetch asset_request (Some (200, "js")) installed
    = (RespondWith (Fulfilled (Some r)), w') /\
    status r = 200 /\ streams w' !! stream r = Some (mkStream "js" false) /\
    delivered (onFetch asset_request (Some (200, "js")) installed) = Some (200, "js") /\
    if String.eqb (method asset_request) "GET" && (200 =? 200)
    then
      streams w' !! S (stream r) = Some (mkStream "js" true) /\
      match cache_refuses (caches (caches_open CACHE_NAME installed))
              [(url asset_request, mkStored 200 "js")] with
      | None =>
          entry CACHE_NAME (url asset_request) w' = Some (mkStored 200 "js") /\
          forall n u, n <> CACHE_NAME \/ u <> url asset_request ->
                      entry n u w' = entry n u installed
      | Some _ => forall n u, entry n u w' = entry n u installed
      end
    else
      streams w' !! S (stream r) = Some (mkStream "js" false) /\
      forall n u, entry n u w' = entry n u installed.
Proof.
  assert (startsWith (url asset_request) origin = true) as Ho by (vm_compute; reflexivity).
  assert (includes (url asset_request) "/api/" = false) as Ha by (vm_compute; reflexivity).
  destruct (network_first asset_request installed Ho Ha) as (Hok & _).
  exact (Hok 200 "js").
Defined.

(** A GET answered with status 200 whose write the cache storage refuses:
    the page gets the answer, nothing is stored, and the next failed fetch of
    the same request gets no response. *)
Lemma refused_put_stores_nothing :
  method asset_request = "GET" /\
  startsWith (url asset_request) (@origin full) = true /\
  includes (url asset_request) "/api/" = false /\
  delivered (onFetch (H := full) asset_request (Some (200, "js")) installed)
  = Some (200, "js") /\
  entry CACHE_NAME (url asset_request)
        (snd (onFetch (H := full) asset_request (Some (200, "js")) installed))
  = None /\
  delivered (onFetch (H := full) asset_request None
               (snd (onFetch (H := full) asset_request (Some (200, "js")) installed)))
  = None.
Proof. split_and!; vm_compute; reflexivity. Qed.

End Examples.

(** ** The service worker's life cycle *)

Section LifeCycleProperties.
Context `{Host}.

Lemma put_all_notin (entries : list (string * Stored)) (c : gmap string Stored) (u : string) :
  u ∉ map fst entries -> put_all entries c !! u = c !! u.
Proof.
  revert c. induction entries as [|[u' e] entries IH]; intros c Hu; simpl; [done |].
  simpl in Hu. apply not_elem_of_cons in Hu as [Hne Hu].
  unfold put_all in *. simpl. rewrite IH by done. by rewrite lookup_insert_ne.
Qed.

Lemma put_all_in (entries : list (string * Stored)) (c : gmap string Stored)
    (u : string) (e : Stored) :
  NoDup (map fst entries) -> (u, e) ∈ entries -> put_all entries c !! u = Some e.
Proof.
  revert c. induction entries as [|[u' e'] entries IH]; intros c Hnd Hin.
  - by apply elem_of_nil in Hin.
  - simpl in Hnd. apply NoDup_cons in Hnd as [Hu' Hnd].
    apply elem_of_cons in Hin as [[= -> ->] | Hin].
    + change (put_all entries (<[u' := e']> c) !! u' = Some e').
      rewrite put_all_notin by done. apply lookup_insert_eq.
    + change (put_all entries (<[u' := e']> c) !! u = Some e). by apply IH.
Qed.

Lemma fetch_all_Some (network : string -> option (Z * string)) (urls : list string)
    (entries : list (string * Stored)) :
  fetch_all network urls = Some entries ->
  map fst entries = urls /\
  forall u st body, u ∈ urls -> network u = Some (st, body) ->
                    (u, mkStored st body) ∈ entries.
Proof.
  revert entries. induction urls as [|u urls IH]; simpl; intros entries.
  - intros [= <-]. split; [done |]. intros u st body Hu. by apply elem_of_nil in Hu.
  - destruct (network u) as [[st body]|] eqn:En; [| discriminate].
    destruct (addAll_accepts st); [| discriminate].
    destruct (fetch_all network urls) as [rest|]; [| discriminate].
    destruct (IH rest eq_refl) as [Hk Hin]. simpl. intros [= <-]. simpl.
    split; [by rewrite Hk |].
    intros u' st' body' Hu' En'. apply elem_of_cons in Hu' as [-> | Hu'].
    + rewrite En in En'. injection En' as <- <-. left.
    + right. by apply Hin.
Qed.

Lemma fetch_all_accepted (network : string -> option (Z * string)) (urls : list string) :
  Forall (fun u => exists st body, network u = Some (st, body) /\ addAll_accepts st = true)
         urls ->
  exists entries, fetch_all network urls = Some entries.
Proof.
  induction 1 as [|u urls (st & body & En & Ha) _ [rest IH]]; simpl; [by eexists |].
  rewrite En, Ha, IH. by eexists.
Qed.

Lemma fetch_all_refused (network : string -> option (Z * string)) (urls : list string) :
  Exists (fun u => forall st body, network u = Some (st, body) -> addAll_accepts st = false)
         urls ->
  fetch_all network urls = None.
Proof.
  induction 1 as [u urls Hu | u urls _ IH]; simpl.
  - destruct (network u) as [[st body]|]; [| done]. by rewrite (Hu st body).
  - destruct (network u) as [[st body]|]; [| done].
    destruct (addAll_accepts st); [| done]. by rewrite IH.
Qed.

Lemma append_inj (p a b : string) : (p ++ a = p ++ b)%string -> a = b.
Proof. induction p as [|c p IH]; simpl; [done |]. intros [= E]. auto. Qed.

Lemma STATIC_ASSETS_NoDup : NoDup (map (fun p => origin ++ p)%string STATIC_ASSETS).
Proof.
  assert (NoDup STATIC_ASSETS) as Hnd.
  { refine (bool_decide_unpack (NoDup STATIC_ASSETS) _). vm_compute. exact I. }
  revert Hnd. generalize STATIC_ASSETS. intros l.
  induction 1 as [|p l Hp _ IH]; simpl; constructor; [| done].
  intros Hin. apply Hp. apply list_elem_of_In in Hin. apply in_map_iff in Hin.
  destruct Hin as (q & E & Hq). apply append_inj in E. subst q.
  by apply list_elem_of_In.
Qed.

Lemma entry_update_eq (name u : string) (c : gmap string Stored) (w : Worker)
    (ss : list Stream) :
  entry name u (mkWorker (update_cache name c (caches w)) ss) = c !! u.
Proof. unfold entry. simpl. by rewrite lookup_update_cache_eq. Qed.

Lemma entry_update_ne (name n u : string) (c : gmap string Stored) (w : Worker)
    (ss : list Stream) :
  n <> name ->
  entry n u (mkWorker (update_cache name c (caches w)) ss) = entry n u w.
Proof. intros Hn. unfold entry. simpl. by rewrite lookup_update_cache_ne. Qed.

Lemma entry_default (name u : string) (w : Worker) :
  default ∅ (lookup_cache name (caches w)) !! u = entry name u w.
Proof.
  unfold entry. destruct (lookup_cache name (caches w)); simpl; [done |].
  apply lookup_empty.
Qed.

Lemma fetch_all_Some_accepted (network : string -> option (Z * string))
    (urls : list string) (entries : list (string * Stored)) :
  fetch_all network urls = Some entries ->
  Forall (fun u => exists st body, network u = Some (st, body) /\ addAll_accepts st = true)
         urls.
Proof.
  revert entries. induction urls as [|u urls IH]; simpl; intros entries; [by constructor |].
  destruct (network u) as [[st body]|] eqn:En; [| discriminate].
  destruct (addAll_accepts st) eqn:Ea; [| discriminate].
  destruct (fetch_all network urls) as [rest|]; [| discriminate].
  intros _. constructor; [by eexists _, _ | by apply (IH rest)].
Qed.

(** What a successful install has done. *)
Lemma onInstall_Ok (network : string -> option (Z * string)) (w : Worker) :
  fst (fst (onInstall network w)) = Ok tt ->
  exists entries,
    fetch_all network (map (fun p => origin ++ p)%string STATIC_ASSETS) = Some entries /\
    cache_refuses (caches (caches_open CACHE_NAME w)) entries = None /\
    onInstall network w
    = (Ok tt,
       mkWorker
         (update_cache CACHE_NAME
            (put_all entries
               (default ∅ (lookup_cache CACHE_NAME (caches (caches_open CACHE_NAME w)))))
            (caches (caches_open CACHE_NAME w)))
         (streams (caches_open CACHE_NAME w)),
       [SkipWaiting]).
Proof.
  unfold onInstall, cache_addAll.
  destruct (fetch_all network _) as [entries|] eqn:Ef; [| discriminate].
  destruct (cache_refuses _ entries) eqn:Er; [discriminate |].
  intros _. by exists entries.
Qed.

Lemma onInstall_entry (network : string -> option (Z * string)) (w : Worker)
    (p : string) (st : Z) (body : string) :
  fst (fst (onInstall network w)) = Ok tt ->
  p ∈ STATIC_ASSETS -> network (origin ++ p)%string = Some (st, body) ->
  entry CACHE_NAME (origin ++ p)%string (snd (fst (onInstall network w)))
  = Some (mkStored st body).
Proof.
  intros Hok Hp En. destruct (onInstall_Ok _ _ Hok) as (entries & Ef & _ & ->).
  destruct (fetch_all_Some _ _ _ Ef) as [Hk Hin]. simpl.
  rewrite entry_update_eq. apply put_all_in.
  - rewrite Hk. apply STATIC_ASSETS_NoDup.
  - apply Hin; [| done]. apply list_elem_of_In, in_map. by apply list_elem_of_In.
Qed.

(** What a successful install leaves under the URL of /index.html. *)
Lemma install_stored_index (network : string -> option (Z * string)) (w : Worker) :
  fst (fst (onInstall network w)) = Ok tt ->
  exists st body,
    network (origin ++ "/index.html")%string = Some (st, body) /\
    entry CACHE_NAME (origin ++ "/index.html")%string (snd (fst (onInstall network w)))
    = Some (mkStored st body).
Proof.
  intros Hok.
  assert ("/index.html" ∈ STATIC_ASSETS) as Hin by (right; left).
  destruct (onInstall_Ok _ _ Hok) as (entries & Ef & _ & _).
  pose proof (fetch_all_Some_accepted _ _ _ Ef) as Hall.
  rewrite Forall_forall in Hall.
  destruct (Hall (origin ++ "/index.html")%string) as (st & body & En & _).
  { apply list_elem_of_In, in_map. by apply list_elem_of_In. }
  exists st, body. split; [done |]. by apply onInstall_entry.
Qed.

(** X1: the install succeeds exactly when the network answers every static
    asset with an accepted status and the cache storage takes the batch. It
    has then called [skipWaiting], the current cache holds each asset under
    its URL with the status and body received, and no other entry of any
    cache has changed. *)
Theorem install_stores_assets (network : string -> option (Z * string)) (w : Worker) :
  (fst (fst (onInstall network w)) = Ok tt <->
   exists entries,
     fetch_all network (map (fun p => origin ++ p)%string STATIC_ASSETS) = Some entries /\
     cache_refuses (caches (caches_open CACHE_NAME w)) entries = None) /\
  (fst (fst (onInstall network w)) = Ok tt ->
   exists w',
     onInstall network w = (Ok tt, w', [SkipWaiting]) /\
     streams w' = streams w /\
     (forall p, p ∈ STATIC_ASSETS ->
                exists st body,
                  network (origin ++ p)%string = Some (st, body) /\
                  addAll_accepts st = true /\
                  entry CACHE_NAME (origin ++ p)%string w' = Some (mkStored st body)) /\
     (forall n u,
         n <> CACHE_NAME \/ u ∉ map (fun p => origin ++ p)%string STATIC_ASSETS ->
         entry n u w' = entry n u w)).
Proof.
  split.
  - split.
    + intros Hok. destruct (onInstall_Ok _ _ Hok) as (entries & Ef & Er & _). eauto.
    + intros (entries & Ef & Er). unfold onInstall, cache_addAll. by rewrite Ef, Er.
  - intros Hok. destruct (onInstall_Ok _ _ Hok) as (entries & Ef & Er & E).
    destruct (fetch_all_Some _ _ _ Ef) as [Hk Hin].
    pose proof (fetch_all_Some_accepted _ _ _ Ef) as Hall. rewrite Forall_forall in Hall.
    eexists. split; [exact E |]. split_and!.
    + simpl. apply streams_caches_open.
    + intros p Hp.
      destruct (Hall (origin ++ p)%string) as (st & body & En & Ha).
      { apply list_elem_of_In, in_map. by apply list_elem_of_In. }
      exists st, body. split_and!; [done | done |].
      pose proof (onInstall_entry network w p st body Hok Hp En) as He.
      rewrite E in He. exact He.
    + intros n u Hne. rewrite <- (entry_caches_open CACHE_NAME n u w).
      destruct (decide (n = CACHE_NAME)) as [-> | Hn].
      * destruct Hne as [Hne | Hu]; [done |].
        rewrite entry_update_eq, put_all_notin by (by rewrite Hk).
        apply entry_default.
      * by apply entry_update_ne.
Qed.

(** X2: when some static asset is not fetched, or is fetched with a status
    that is not accepted, the install rejects, [skipWaiting] is not called and
    no entry of any cache has changed: no asset is stored on its own. *)
Theorem install_all_or_nothing (network : string -> option (Z * string)) (w : Worker) :
  Exists (fun p => forall st body,
              network (origin ++ p)%string = Some (st, body) -> addAll_accepts st = false)
         STATIC_ASSETS ->
  exists w',
    onInstall network w = (Throw TypeError, w', []) /\
    streams w' = streams w /\
    forall n u, entry n u w' = entry n u w.
Proof.
  intros Hex.
  assert (fetch_all network (map (fun p => origin ++ p)%string STATIC_ASSETS) = None) as Ef.
  { apply fetch_all_refused. apply List.Exists_map. exact Hex. }
  unfold onInstall, cache_addAll. rewrite Ef.
  eexists. split; [reflexivity |]. split.
  - apply streams_caches_open.
  - intros n u. apply entry_caches_open.
Qed.

Lemma foldl_caches_delete (names : list string) (cs : list (string * gmap string Stored)) :
  foldl (fun cs name => caches_delete name cs) cs names
  = List.filter (fun nc => negb (existsb (String.eqb (fst nc)) names)) cs.
Proof.
  revert cs. induction names as [|n names IH]; intros cs; simpl.
  - induction cs as [|nc cs IHc]; simpl; [done | by rewrite <- IHc].
  - rewrite IH. unfold caches_delete.
    induction cs as [|nc cs IHc]; simpl; [done |].
    destruct (String.eqb (fst nc) n); simpl; [done |].
    destruct (existsb (String.eqb (fst nc)) names); simpl; [done | by rewrite IHc].
Qed.

Lemma onActivate_caches (w : Worker) :
  caches (fst (onActivate w))
  = List.filter (fun nc => String.eqb (fst nc) CACHE_NAME) (caches w).
Proof.
  unfold onActivate. simpl. rewrite foldl_caches_delete.
  apply List.filter_ext_in. intros [n c] Hin. simpl.
  destruct (String.eqb n CACHE_NAME) eqn:E.
  - apply negb_true_iff. apply not_true_is_false. intros Hex.
    apply existsb_exists in Hex as (n' & Hn' & En').
    apply String.eqb_eq in En'. subst n'.
    apply filter_In in Hn' as [_ Hn']. rewrite E in Hn'. discriminate.
  - apply negb_false_iff. apply existsb_exists. exists n. split.
    + apply filter_In. split; [| by rewrite E].
      apply in_map_iff. by exists (n, c).
    + apply String.eqb_refl.
Qed.

Lemma lookup_cache_filter (name n : string) (cs : list (string * gmap string Stored)) :
  lookup_cache n (List.filter (fun nc => String.eqb (fst nc) name) cs)
  = if String.eqb n name then lookup_cache n cs else None.
Proof.
  induction cs as [|[n' c] cs IH]; simpl; [by destruct (String.eqb n name) |].
  destruct (String.eqb n' name) eqn:E'; simpl.
  - destruct (String.eqb n' n) eqn:En.
    + apply String.eqb_eq in En. subst n'. by rewrite E'.
    + exact IH.
  - rewrite IH. destruct (String.eqb n name) eqn:E; [| done].
    destruct (String.eqb n' n) eqn:En; [| done].
    apply String.eqb_eq in En. subst n'. congruence.
Qed.

(** X3: activation keeps the caches called by the current name as they are
    and deletes every other cache, so afterwards no other cache holds any
    entry and none can shadow the current one; the body streams are untouched
    and the clients are claimed last. *)
Theorem activate_keeps_current (w : Worker) :
  caches (fst (onActivate w))
  = List.filter (fun nc => String.eqb (fst nc) CACHE_NAME) (caches w) /\
  streams (fst (onActivate w)) = streams w /\
  (forall u, entry CACHE_NAME u (fst (onActivate w)) = entry CACHE_NAME u w) /\
  (forall n u, n <> CACHE_NAME -> entry n u (fst (onActivate w)) = None) /\
  (forall u, unshadowed u (fst (onActivate w))) /\
  (forall n, CachesDelete n ∈ snd (onActivate w) <->
             n ∈ map fst (caches w) /\ n <> CACHE_NAME) /\
  last (snd (onActivate w)) = Some ClientsClaim.
Proof.
  pose proof (onActivate_caches w) as Hc. split_and!.
  - exact Hc.
  - done.
  - intros u. unfold entry. rewrite Hc, lookup_cache_filter.
    by rewrite String.eqb_refl.
  - intros n u Hn. unfold entry. rewrite Hc, lookup_cache_filter.
    apply String.eqb_neq in Hn. by rewrite Hn.
  - intros u. unfold unshadowed. rewrite Hc. apply Forall_forall.
    intros nc Hin. apply list_elem_of_In, filter_In in Hin as [_ E].
    left. by apply String.eqb_eq.
  - intros n. unfold onActivate. simpl. rewrite elem_of_app. split.
    + intros [Hin | Hin].
      * apply list_elem_of_In, in_map_iff in Hin as (n' & [= ->] & Hin).
        apply filter_In in Hin as [Hin E]. split; [by apply list_elem_of_In |].
        apply negb_true_iff in E. by apply String.eqb_neq.
      * apply list_elem_of_singleton in Hin. discriminate.
    + intros [Hin Hn]. left. apply list_elem_of_In, in_map, filter_In.
      split; [by apply list_elem_of_In |].
      apply negb_true_iff. by apply String.eqb_neq.
  - unfold onActivate. simpl. apply last_snoc.
Qed.

Lemma onFailure_caches (request : Request) (w : Worker) :
  caches (snd (onFailure request w)) = caches w.
Proof.
  unfold onFailure. pose proof (caches_match_caches request w) as Hc.
  destruct (caches_match request w) as [[r|] w1]; simpl in *; [done |].
  destruct (String.eqb (mode request) "navigate"); [| done].
  by rewrite caches_match_caches.
Qed.

(** What the page gets in the network-first branch when the network fails. *)
Lemma delivered_failure (request : Request) (w : Worker) :
  startsWith (url request) origin = true ->
  includes (url request) "/api/" = false ->
  delivered (onFetch request None w) = answer <$> fallback request w.
Proof.
  intros Ho Ha. rewrite (onFetch_failure _ _ Ho Ha). unfold onFailure, fallback.
  destruct (stored_match request w) as [e|] eqn:Em.
  - pose proof (caches_match_delivered request w) as Hd. rewrite Em in Hd.
    unfold caches_match in *. rewrite Em in *. simpl in *. done.
  - rewrite (caches_match_none _ _ Em).
    destruct (String.eqb (mode request) "navigate"); [| done].
    apply caches_match_delivered.
Qed.

Lemma fallback_caches (request : Request) (w1 w2 : Worker) :
  caches w1 = caches w2 -> fallback request w1 = fallback request w2.
Proof. unfold fallback, stored_match. by intros ->. Qed.

Lemma find_entry_app_empty (u name : string) (cs : list (string * gmap string Stored)) :
  find_entry u (cs ++ [(name, ∅)]) = find_entry u cs.
Proof.
  induction cs as [|[n c] cs IH]; simpl; [by rewrite lookup_empty |].
  by destruct (c !! u).
Qed.

Lemma find_entry_caches_open (u name : string) (w : Worker) :
  find_entry u (caches (caches_open name w)) = find_entry u (caches w).
Proof.
  unfold caches_open. destruct (lookup_cache name (caches w)); [done |].
  simpl. apply find_entry_app_empty.
Qed.

Lemma find_entry_update (u name : string) (e : Stored) (c : gmap string Stored)
    (cs : list (string * gmap string Stored)) :
  Forall (fun nc => fst nc = name \/ snd nc !! u = None) cs ->
  find_entry u (update_cache name (<[u := e]> c) cs) = Some e.
Proof.
  induction 1 as [|[n c'] cs Hnc _ IH]; simpl.
  - by rewrite lookup_insert_eq.
  - destruct (String.eqb n name) eqn:E; simpl.
    + by rewrite lookup_insert_eq.
    + destruct Hnc as [Hn | Hu]; simpl in *.
      * apply String.eqb_neq in E. done.
      * by rewrite Hu.
Qed.

Lemma unshadowed_caches_open (u : string) (w : Worker) :
  unshadowed u w -> unshadowed u (caches_open CACHE_NAME w).
Proof.
  unfold unshadowed, caches_open. intros Hu.
  destruct (lookup_cache CACHE_NAME (caches w)); [done |]. simpl.
  apply Forall_app. split; [done |]. constructor; [by left | constructor].
Qed.

(** X4: handling a request changes an entry of a cache only when the
    request begins with the worker's origin, is outside /api/, is a GET, and
    the network answered it with status 200; the entry changed is then the one
    of the current cache for the request URL. Cross-origin requests, API
    requests, other methods, other statuses and failed fetches leave every
    entry as it was. *)
Theorem onFetch_stores_only_good_GET (request : Request) (network : option (Z * string))
    (w : Worker) (n u : string) :
  entry n u (snd (onFetch request network w)) <> entry n u w ->
  n = CACHE_NAME /\ u = url request /\ method request = "GET" /\
  startsWith (url request) origin = true /\
  includes (url request) "/api/" = false /\
  exists body, network = Some (200, body).
Proof.
  intros Hne.
  destruct (startsWith (url request) origin) eqn:Ho; cycle 1.
  { exfalso. apply Hne. unfold onFetch. by rewrite Ho. }
  destruct (includes (url request) "/api/") eqn:Ha.
  { exfalso. apply Hne. rewrite (onFetch_api _ _ _ Ho Ha).
    destruct network as [[st body]|]; [done |].
    simpl. unfold entry. by rewrite caches_match_caches. }
  destruct network as [[st body]|]; cycle 1.
  { exfalso. apply Hne. rewrite (onFetch_failure _ _ Ho Ha). simpl.
    unfold entry. by rewrite onFailure_caches. }
  rewrite (onFetch_response _ _ _ _ Ho Ha) in Hne. simpl in Hne.
  pose proof (entry_after_response request st body w) as He.
  destruct (String.eqb (method request) "GET" && (st =? 200)) eqn:E.
  - apply andb_true_iff in E as [Em Es].
    apply String.eqb_eq in Em. apply Z.eqb_eq in Es. subst st.
    destruct (cache_refuses _ _); [exfalso; apply Hne, He |].
    destruct He as [_ He].
    destruct (decide (n = CACHE_NAME)) as [-> | Hn];
      [| exfalso; apply Hne, He; by left].
    destruct (decide (u = url request)) as [-> | Hu];
      [| exfalso; apply Hne, He; by right].
    split_and!; try done. by exists body.
  - exfalso. apply Hne, He.
Qed.

Lemma stored_match_caches_open (request : Request) (w : Worker) (ss : list Stream) :
  stored_match request (mkWorker (caches (caches_open CACHE_NAME w)) ss)
  = stored_match request w.
Proof.
  unfold stored_match. simpl. destruct (String.eqb (method request) "GET"); [| done].
  apply find_entry_caches_open.
Qed.

Lemma stored_match_after_response (request : Request) (body : string) (w : Worker) :
  method request = "GET" -> unshadowed (url request) w -> put_taken request 200 body w ->
  stored_match request (after_response request 200 body w) = Some (mkStored 200 body).
Proof.
  intros Hm Hu Ht. unfold stored_match, after_response. rewrite Hm. simpl.
  unfold put_taken in Ht. rewrite Ht. simpl.
  apply find_entry_update. by apply unshadowed_caches_open.
Qed.

(** X5: a GET outside /api/ that the network answers with status 200 can be
    served offline once the cache storage has taken the put: when the next
    fetch of the same request fails, the page receives that status and body,
    provided no cache other than the current one holds an entry for the URL,
    as is always so after activation. When the storage refuses the put the
    failed fetch gets what it would have got before. *)
Theorem answered_then_offline (request : Request) (body : string) (w : Worker) :
  startsWith (url request) origin = true ->
  includes (url request) "/api/" = false ->
  method request = "GET" ->
  (put_taken request 200 body w -> unshadowed (url request) w ->
   delivered (onFetch request None (snd (onFetch request (Some (200, body)) w)))
   = Some (200, body)) /\
  (put_taken request 200 body (fst (onActivate w)) ->
   delivered (onFetch request None
                (snd (onFetch request (Some (200, body)) (fst (onActivate w)))))
   = Some (200, body)) /\
  (~ put_taken request 200 body w ->
   delivered (onFetch request None (snd (onFetch request (Some (200, body)) w)))
   = delivered (onFetch request None w)).
Proof.
  intros Ho Ha Hm.
  assert (forall w0, put_taken request 200 body w0 -> unshadowed (url request) w0 ->
            delivered (onFetch request None (snd (onFetch request (Some (200, body)) w0)))
            = Some (200, body)) as Hgen.
  { intros w0 Ht Hu. rewrite (onFetch_response _ _ _ _ Ho Ha). simpl.
    rewrite (delivered_failure _ _ Ho Ha). unfold fallback.
    by rewrite (stored_match_after_response _ _ _ Hm Hu Ht). }
  split_and!.
  - apply Hgen.
  - intros Ht. apply Hgen; [done |].
    unfold unshadowed. rewrite onActivate_caches. apply Forall_forall.
    intros nc Hin. apply list_elem_of_In, filter_In in Hin as [_ E].
    left. by apply String.eqb_eq.
  - intros Hnt. rewrite (onFetch_response _ _ _ _ Ho Ha). simpl.
    rewrite !(delivered_failure _ _ Ho Ha). unfold after_response, put_taken in *.
    destruct (cache_refuses _ _); [| done].
    destruct (String.eqb (method request) "GET" && (200 =? 200));
      unfold fallback; by rewrite !stored_match_caches_open.
Qed.


(** X6: an answer that is not stored does not cost the cached copy. After a
    request outside /api/ was answered with a status other than 200, or was
    not a GET, a later failed fetch of a request gets exactly what it would
    have got before that answer. *)
Theorem unstored_answer_keeps_copy (request later : Request) (st : Z) (body : string)
    (w : Worker) :
  startsWith (url request) origin = true ->
  includes (url request) "/api/" = false ->
  startsWith (url later) origin = true ->
  includes (url later) "/api/" = false ->
  method request <> "GET" \/ st <> 200 ->
  delivered (onFetch later None (snd (onFetch request (Some (st, body)) w)))
  = delivered (onFetch later None w).
Proof.
  intros Ho Ha Ho' Ha' Hno.
  rewrite (onFetch_response _ _ _ _ Ho Ha). simpl.
  rewrite !(delivered_failure _ _ Ho' Ha').
  assert (String.eqb (method request) "GET" && (st =? 200) = false) as E.
  { apply andb_false_iff. destruct Hno as [Hm | Hs].
    - left. by apply String.eqb_neq.
    - right. by apply Z.eqb_neq. }
  unfold after_response. rewrite E. unfold fallback.
  by rewrite !stored_match_caches_open.
Qed.

Lemma stored_match_GET (request : Request) (w : Worker) :
  method request = "GET" -> stored_match request w = find_entry (url request) (caches w).
Proof. intros Hm. unfold stored_match. by rewrite Hm. Qed.

Lemma find_entry_first (u name : string) (e : Stored)
    (cs : list (string * gmap string Stored)) :
  Forall (fun nc => fst nc = name) cs ->
  (c ← lookup_cache name cs; c !! u) = Some e ->
  find_entry u cs = Some e.
Proof.
  intros Hall. destruct Hall as [|[n c] cs Hn _]; simpl; [done |].
  simpl in Hn. subst n. rewrite String.eqb_refl. simpl. by intros ->.
Qed.

(** X7: once an install has succeeded and the worker is activated, a failed
    navigation inside the origin and outside /api/ always gets a response:
    the entry cached for the request itself, or else the /index.html that the
    install fetched. *)
Theorem offline_navigation (network : string -> option (Z * string)) (w : Worker)
    (request : Request) :
  fst (fst (onInstall network w)) = Ok tt ->
  startsWith (url request) origin = true ->
  includes (url request) "/api/" = false ->
  mode request = "navigate" ->
  let w2 := fst (onActivate (snd (fst (onInstall network w)))) in
  exists e,
    delivered (onFetch request None w2) = Some (answer e) /\
    (stored_match request w2 = Some e \/
     stored_match request w2 = None /\
     exists st body, network (origin ++ "/index.html")%string = Some (st, body) /\
                     e = mkStored st body).
Proof.
  intros Hok Ho Ha Hnav w2.
  destruct (install_stored_index network w Hok) as (st & body & En & He).
  assert (stored_match indexRequest w2 = Some (mkStored st body)) as Hi.
  { rewrite (stored_match_GET indexRequest w2 eq_refl). subst w2.
    rewrite onActivate_caches. apply (find_entry_first _ CACHE_NAME).
    - apply Forall_forall. intros nc Hin.
      apply list_elem_of_In, filter_In in Hin as [_ E]. by apply String.eqb_eq.
    - rewrite lookup_cache_filter, String.eqb_refl. exact He. }
  rewrite (delivered_failure _ _ Ho Ha). unfold fallback. rewrite Hnav. simpl.
  destruct (stored_match request w2) as [e|] eqn:Em.
  - exists e. split; [done | by left].
  - rewrite Hi. exists (mkStored st body). split; [done |]. right. eauto.
Qed.

(** X18: after a successful install and the activation, every static asset
    is available offline: a failed GET for its URL gets the status and body
    that the install fetched, whatever older caches existed before. *)
Theorem installed_assets_offline (network : string -> option (Z * string)) (w : Worker)
    (request : Request) (p : string) (st : Z) (body : string) :
  fst (fst (onInstall network w)) = Ok tt ->
  p ∈ STATIC_ASSETS ->
  network (origin ++ p)%string = Some (st, body) ->
  url request = (origin ++ p)%string -> method request = "GET" ->
  startsWith (url request) origin = true ->
  includes (url request) "/api/" = false ->
  delivered (onFetch request None (fst (onActivate (snd (fst (onInstall network w))))))
  = Some (st, body).
Proof.
  intros Hok Hp En Hu Hm Ho Ha.
  pose proof (onInstall_entry network w p st body Hok Hp En) as He.
  rewrite (delivered_failure _ _ Ho Ha). unfold fallback.
  rewrite (stored_match_GET _ _ Hm), onActivate_caches, Hu.
  rewrite (find_entry_first _ CACHE_NAME (mkStored st body)); [done | |].
  - apply Forall_forall. intros nc Hin.
    apply list_elem_of_In, filter_In in Hin as [_ E]. by apply String.eqb_eq.
  - rewrite lookup_cache_filter, String.eqb_refl. exact He.
Qed.

End LifeCycleProperties.

(** ** The refresh, continued *)

Section RefreshProperties.
Context `{Host}.
Import CACHE_KEYS.

Lemma onError_contained (e : exn) (w : World) :
  snd (onError e w) = Ok tt /\
  localStorage (fst (onError e w)) = localStorage w /\
  trace (fst (onError e w)) = trace w /\
  (rides_state (fst (onError e w)) = rides_state w \/
   rides_state (fst (onError e w)) = rides (getCachedData (localStorage w)) /\
   truthy (rides (getCachedData (localStorage w))) = true).
Proof.
  unfold onError, mbind, Eff_bind, read, setRides, modify, mret, Eff_ret. simpl.
  destruct (truthy (rides (getCachedData (localStorage w)))) eqn:E; simpl;
    split_and!; auto.
Qed.

(** The refresh on the network path that goes all the way. *)
Lemma fetchData_fetched (b : Backend) (c : Clock) (w : World) (p : json)
    (matched : list Ride) :
  gate (localStorage w) (atCheck c) = false ->
  fetches b p matched ->
  let sorted := rides_to_json (sortedRides (atSort c) matched) in
  fetchData b c w =
  (with_loading false
     (with_rides sorted (fst (setCacheData sorted p (atWrite c) (queried w)))),
   Ok tt).
Proof.
  intros Hg (rp & mine & others & Ep & <- & Eerr & Ht & Hgen & Em & Eo & Eoerr & Ematch).
  intros sorted. subst sorted.
  unfold fetchData, try_finally, try_catch, tryBlock, mbind, Eff_bind.
  unfold setLoading at 1. unfold modify. rewrite serveFromCache_eq. simpl.
  rewrite Hg.
  unfold fetchFromNetwork, mbind, Eff_bind, await, lift, setRides, modify, mret, Eff_ret.
  rewrite Ep, Em, Eo. simpl. rewrite Eerr, Ht, Hgen, Eoerr. simpl.
  rewrite Ematch. simpl. fold (queried w).
  destruct (setCacheData_trace (rides_to_json (sortedRides (atSort c) matched))
              (data rp) (atWrite c) (queried w)) as (more & _ & Es).
  destruct (setCacheData _ _ _ (queried w)) as [w1 res]. simpl in *. by subst res.
Qed.

Lemma tryBlock_network (b : Backend) (c : Clock) (w : World) :
  gate (localStorage w) (atCheck c) = false ->
  tryBlock b c w = fetchFromNetwork b c (with_loading true w).
Proof.
  intros Hg. unfold tryBlock, mbind, Eff_bind.
  unfold setLoading at 1. unfold modify. rewrite serveFromCache_eq. simpl.
  by rewrite Hg.
Qed.

Lemma fetchData_unfold (b : Backend) (c : Clock) (w : World) :
  fetchData b c w =
  match tryBlock b c w with
  | (w1, Ok _) => (with_loading false w1, Ok tt)
  | (w1, Throw e) => (with_loading false (fst (onError e w1)), Ok tt)
  end.
Proof.
  unfold fetchData, try_finally, try_catch.
  destruct (tryBlock b c w) as [w1 [[]|e]]; simpl; [done |].
  destruct (onError_contained e w1) as (Hs & _).
  destruct (onError e w1) as [w2 r]. simpl in *. by subst r.
Qed.

(** The network path that does not go all the way changes nothing but the
    trace, to which it adds queries. *)
Lemma fetchFromNetwork_not_fetched (b : Backend) (c : Clock) (w : World) :
  (forall p matched, ~ fetches b p matched) ->
  localStorage (fst (fetchFromNetwork b c w)) = localStorage w /\
  rides_state (fst (fetchFromNetwork b c w)) = rides_state w /\
  exists l, trace (fst (fetchFromNetwork b c w)) = trace w ++ l /\ only_queries l.
Proof.
  intros Hnot.
  assert (only_queries [Query QProfile]) as Q1 by (repeat constructor; by eexists).
  assert (only_queries [Query QProfile; Query QMyRides]) as Q2
    by (repeat constructor; by eexists).
  assert (only_queries [Query QProfile; Query QMyRides; Query QRides]) as Q3
    by (repeat constructor; by eexists).
  unfold fetchFromNetwork, mbind, Eff_bind, await, lift, setRides, modify, mret, Eff_ret.
  destruct (profileReply b) as [rp|] eqn:Ep; simpl; [| by eauto].
  destruct (error rp) eqn:Eerr; simpl; [by eauto |].
  destruct (truthy (data rp)) eqn:Ht; simpl; [| by eauto].
  destruct (truthy (get_prop "gender" (data rp))) eqn:Hgen; simpl; [| by eauto].
  destruct (myRidesReply b) as [mine|] eqn:Em; simpl;
    [| split_and!; try done; exists [Query QProfile; Query QMyRides];
       by rewrite <- app_assoc].
  destruct (ridesReply b) as [others|] eqn:Eo; simpl;
    [| split_and!; try done; exists [Query QProfile; Query QMyRides; Query QRides];
       by rewrite <- !app_assoc].
  destruct (error others) eqn:Eoerr; simpl;
    [split_and!; try done; exists [Query QProfile; Query QMyRides; Query QRides];
     by rewrite <- !app_assoc |].
  destruct (matchedRides (default [] (data mine)) (default [] (data others)))
    as [matched|e] eqn:Ematch; simpl.
  - exfalso. apply (Hnot (data rp) matched). exists rp, mine, others. split_and!; done.
  - split_and!; try done. exists [Query QProfile; Query QMyRides; Query QRides].
    by rewrite <- !app_assoc.
Qed.

(** Every run of the refresh that does not go all the way leaves the storage
    alone and writes no item. *)
Lemma fetchData_not_fetched (b : Backend) (c : Clock) (w : World) :
  gate (localStorage w) (atCheck c) = true \/
  (forall p matched, ~ fetches b p matched) ->
  localStorage (fst (fetchData b c w)) = localStorage w /\
  only_queries (issued (fetchData b c) w) /\
  (rides_state (fst (fetchData b c w)) = rides_state w \/
   rides_state (fst (fetchData b c w)) = rides (getCachedData (localStorage w)) /\
   truthy (rides (getCachedData (localStorage w))) = true).
Proof.
  intros Hcase.
  destruct (gate (localStorage w) (atCheck c)) eqn:Hg.
  { unfold issued. rewrite (fetchData_served _ _ _ Hg). simpl. rewrite drop_all.
    split_and!; [done | constructor |].
    right. split; [done |]. unfold gate in Hg.
    apply andb_true_iff in Hg as [_ Hg]. by apply andb_true_iff in Hg as [Hg _]. }
  destruct Hcase as [? | Hnot]; [discriminate |].
  unfold issued. rewrite fetchData_unfold, (tryBlock_network _ _ _ Hg).
  destruct (fetchFromNetwork_not_fetched b c (with_loading true w) Hnot)
    as (Hs & Hr & l & Ht & Hl).
  destruct (fetchFromNetwork b c (with_loading true w)) as [w1 [[]|e]]; simpl in *.
  - rewrite Ht, drop_app_length. split_and!; [done | done | by left].
  - destruct (onError_contained e w1) as (_ & Hs' & Ht' & Hr').
    rewrite Hs', Ht', Ht, drop_app_length, Hs. split_and!; [done | done |].
    rewrite Hs, Hr in Hr'. exact Hr'.
Qed.

(** X8: a refresh never throws to its caller and always ends with the
    loading flag off, whatever the cache holds and whatever the backend does,
    rejected queries and a throwing match included. *)
Theorem fetchData_contained (b : Backend) (c : Clock) (w : World) :
  snd (fetchData b c w) = Ok tt /\ loading (fst (fetchData b c w)) = false.
Proof.
  rewrite fetchData_unfold. by destruct (tryBlock b c w) as [w1 [[]|e]].
Qed.

Lemma fetches_dec (b : Backend) :
  (exists p matched, fetches b p matched) \/ (forall p matched, ~ fetches b p matched).
Proof.
  unfold fetches.
  destruct (profileReply b) as [rp|] eqn:Ep;
    [| right; intros p m (? & ? & ? & ? & _); discriminate].
  destruct (error rp) eqn:Eerr;
    [right; intros p m (? & ? & ? & [= <-] & _ & ? & _); congruence |].
  destruct (truthy (data rp)) eqn:Ht;
    [| right; intros p m (? & ? & ? & [= <-] & <- & _ & ? & _); congruence].
  destruct (truthy (get_prop "gender" (data rp))) eqn:Hgen;
    [| right; intros p m (? & ? & ? & [= <-] & <- & _ & _ & ? & _); congruence].
  destruct (myRidesReply b) as [mine|] eqn:Em;
    [| right; intros p m (? & ? & ? & _ & _ & _ & _ & _ & ? & _); discriminate].
  destruct (ridesReply b) as [others|] eqn:Eo;
    [| right; intros p m (? & ? & ? & _ & _ & _ & _ & _ & _ & ? & _); discriminate].
  destruct (error others) eqn:Eoerr;
    [right; intros p m (? & ? & ? & _ & _ & _ & _ & _ & _ & [= <-] & ? & _); congruence |].
  destruct (matchedRides (default [] (data mine)) (default [] (data others)))
    as [matched|e] eqn:Ematch.
  - left. exists (data rp), matched, rp, mine, others. split_and!; done.
  - right. intros p m (? & ? & ? & _ & _ & _ & _ & _ & [= <-] & [= <-] & _ & ?).
    congruence.
Qed.

(** X9: a refresh touches the cache only after a complete fetch. If the
    storage differs afterwards, or an item was written or refused, then the
    cache gate was closed, all three queries were answered, the profile and
    rides queries without error, the profile has a gender and the match did
    not throw. *)
Theorem cache_written_only_after_fetch (b : Backend) (c : Clock) (w : World) :
  localStorage (fst (fetchData b c w)) <> localStorage w \/
  (exists k v, SetItem k v ∈ issued (fetchData b c) w) \/
  (exists k, SetItemFailed k ∈ issued (fetchData b c) w) ->
  gate (localStorage w) (atCheck c) = false /\
  exists p matched, fetches b p matched.
Proof.
  intros Hch.
  assert (~ (localStorage (fst (fetchData b c w)) = localStorage w /\
             only_queries (issued (fetchData b c) w))) as Hno.
  { intros [Hs Hq]. unfold only_queries in Hq. rewrite Forall_forall in Hq.
    destruct Hch as [Hch | [(k & v & Hin) | (k & Hin)]]; [done | |];
      destruct (Hq _ Hin) as [q ?]; discriminate. }
  destruct (gate (localStorage w) (atCheck c)) eqn:Hg.
  { exfalso. apply Hno.
    destruct (fetchData_not_fetched b c w) as (? & ? & _); [by left | done]. }
  split; [done |].
  destruct (fetches_dec b) as [Hf | Hnf]; [done |].
  exfalso. apply Hno.
  destruct (fetchData_not_fetched b c w) as (? & ? & _); [by right | done].
Qed.

(** X10: the rides shown after a refresh are the ones shown before, or the
    cached rides, or the freshly matched and sorted ones. So the list stays a
    JSON array as long as the cached rides are one. *)
Theorem shown_rides (b : Backend) (c : Clock) (w : World) :
  (rides_state (fst (fetchData b c w)) = rides_state w \/
   (rides_state (fst (fetchData b c w)) = rides (getCachedData (localStorage w)) /\
    truthy (rides (getCachedData (localStorage w))) = true) \/
   (exists p matched,
       fetches b p matched /\
       rides_state (fst (fetchData b c w))
       = rides_to_json (sortedRides (atSort c) matched))) /\
  (is_array (rides_state w) ->
   (truthy (rides (getCachedData (localStorage w))) = true ->
    is_array (rides (getCachedData (localStorage w)))) ->
   is_array (rides_state (fst (fetchData b c w)))).
Proof.
  assert (rides_state (fst (fetchData b c w)) = rides_state w \/
          (rides_state (fst (fetchData b c w)) = rides (getCachedData (localStorage w)) /\
           truthy (rides (getCachedData (localStorage w))) = true) \/
          (exists p matched,
              fetches b p matched /\
              rides_state (fst (fetchData b c w))
              = rides_to_json (sortedRides (atSort c) matched))) as Hcases.
  { destruct (gate (localStorage w) (atCheck c)) eqn:Hg.
    - destruct (fetchData_not_fetched b c w) as (_ & _ & [Hr | Hr]); auto.
    - destruct (fetches_dec b) as [(p & matched & Hf) | Hnf].
      + do 2 right. exists p, matched. split; [done |].
        by rewrite (fetchData_fetched _ _ _ _ _ Hg Hf).
      + destruct (fetchData_not_fetched b c w) as (_ & _ & [Hr | Hr]); auto. }
  split; [exact Hcases |].
  intros Hw Hc. destruct Hcases as [-> | [[-> Ht] | (p & matched & _ & ->)]];
    [done | by apply Hc | by eexists].
Qed.

Lemma matchedRides_nil (rides : list Ride) : matchedRides [] rides = Ok [].
Proof.
  unfold matchedRides. induction rides as [|r rides IH]; simpl in *; [done |].
  by rewrite IH.
Qed.

(** X11: the error of the query for the user's own rides is never read. When
    it comes back without data, or with no ride, the refresh matches nothing
    whatever the candidates are, shows an empty list and writes that empty
    list to the cache as a fresh result. *)
Theorem missing_own_rides_show_nothing (b : Backend) (c : Clock) (w : World)
    (rp : Reply json) (mine others : Reply (option (list Ride))) :
  gate (localStorage w) (atCheck c) = false ->
  profileReply b = Some rp -> error rp = false ->
  truthy (data rp) = true -> truthy (get_prop "gender" (data rp)) = true ->
  myRidesReply b = Some mine -> data mine = None \/ data mine = Some [] ->
  ridesReply b = Some others -> error others = false ->
  rides_state (fst (fetchData b c w)) = JArray [] /\
  issued (fetchData b c) w
  = [Query QProfile; Query QMyRides; Query QRides]
    ++ issued (setCacheData (JArray []) (data rp) (atWrite c)) (queried w).
Proof.
  intros Hg Ep Eerr Ht Hgen Em Hmine Eo Eoerr.
  assert (fetches b (data rp) []) as Hf.
  { exists rp, mine, others. split_and!; try done.
    destruct Hmine as [-> | ->]; apply matchedRides_nil. }
  unfold issued. rewrite (fetchData_fetched _ _ _ _ _ Hg Hf). simpl.
  split; [done |].
  change (rides_to_json (sortedRides (atSort c) [])) with (JArray []).
  destruct (setCacheData_trace (JArray []) (data rp) (atWrite c) (queried w))
    as (more & Et & _).
  rewrite Et, drop_app_length. simpl. rewrite <- !app_assoc. simpl.
  by rewrite drop_app_length.
Qed.

Lemma written_cache_read (r p : json) (t : Z) (w : World) :
  JSON_parse (JSON_stringify r) = Some r ->
  JSON_parse (JSON_stringify p) = Some p ->
  SetItem LAST_FETCH (NumberToString t) ∈ issued (setCacheData r p t) w ->
  getCachedData (localStorage (fst (setCacheData r p t w))) = mkCached r p.
Proof.
  intros Pr Pp Hin. rewrite (setCacheData_complete _ _ _ _ Hin).
  unfold getCachedData, parse_item.
  destruct keys_distinct as (Hrp & Hrl & Hpl).
  rewrite (lookup_insert_ne _ LAST_FETCH RIDES), (lookup_insert_ne _ PROFILE RIDES),
    lookup_insert_eq by done.
  rewrite (lookup_insert_ne _ LAST_FETCH PROFILE), lookup_insert_eq by done.
  by rewrite Pr, Pp.
Qed.

Lemma written_cache_valid (r p : json) (t now : Z) (w : World) :
  NumberToString t <> "" ->
  StringToNumber (NumberToString t) = Some t ->
  SetItem LAST_FETCH (NumberToString t) ∈ issued (setCacheData r p t) w ->
  isCacheValid (localStorage (fst (setCacheData r p t w))) now
  = JBool (now - t <? CACHE_EXPIRATION).
Proof.
  intros Hne Hrt Hin. rewrite (setCacheData_complete _ _ _ _ Hin).
  unfold isCacheValid. rewrite lookup_insert_eq. simpl.
  apply String.eqb_neq in Hne. by rewrite Hne, Hrt.
Qed.

(** X12: a refresh that fetched and completed its write at [atWrite c] is
    followed, for fifteen minutes, by refreshes that issue no query, leave the
    storage alone and show the same rides; from fifteen minutes on the next
    refresh goes to the network again. The host is assumed to read back the
    number and the JSON texts it printed. *)
Theorem refresh_then_cached (b b' : Backend) (c c' : Clock) (w : World) (p : json)
    (matched : list Ride) :
  let sorted := rides_to_json (sortedRides (atSort c) matched) in
  let w1 := fst (fetchData b c w) in
  gate (localStorage w) (atCheck c) = false ->
  fetches b p matched ->
  SetItem LAST_FETCH (NumberToString (atWrite c))
  ∈ issued (setCacheData sorted p (atWrite c)) (queried w) ->
  NumberToString (atWrite c) <> "" ->
  StringToNumber (NumberToString (atWrite c)) = Some (atWrite c) ->
  JSON_parse (JSON_stringify sorted) = Some sorted ->
  JSON_parse (JSON_stringify p) = Some p ->
  (atCheck c' - atWrite c < 15 * 60 * 1000 ->
   issued (fetchData b' c') w1 = [] /\
   rides_state (fst (fetchData b' c' w1)) = rides_state w1 /\
   localStorage (fst (fetchData b' c' w1)) = localStorage w1) /\
  (15 * 60 * 1000 <= atCheck c' - atWrite c ->
   exists rest, issued (fetchData b' c') w1 = Query QProfile :: rest).
Proof.
  intros sorted w1 Hg Hf Hin Hne Hrt Pr Pp.
  assert (truthy p = true) as Hp.
  { destruct Hf as (rp & ? & ? & _ & <- & _ & Ht & _). exact Ht. }
  assert (localStorage w1
          = localStorage (fst (setCacheData sorted p (atWrite c) (queried w)))) as Hs.
  { subst w1. by rewrite (fetchData_fetched _ _ _ _ _ Hg Hf). }
  assert (rides_state w1 = sorted) as Hr.
  { subst w1. by rewrite (fetchData_fetched _ _ _ _ _ Hg Hf). }
  assert (gate (localStorage w1) (atCheck c')
          = (atCheck c' - atWrite c <? CACHE_EXPIRATION)) as Hgate.
  { unfold gate. rewrite Hs, (written_cache_read _ _ _ _ Pr Pp Hin),
      (written_cache_valid _ _ _ _ _ Hne Hrt Hin). simpl. rewrite Hp.
    by rewrite andb_true_r. }
  split.
  - intros Hlt. assert (gate (localStorage w1) (atCheck c') = true) as Hg1.
    { rewrite Hgate. apply Z.ltb_lt. unfold CACHE_EXPIRATION. lia. }
    unfold issued. rewrite (fetchData_served _ _ _ Hg1). simpl.
    rewrite drop_all. split_and!; [done | | done].
    by rewrite Hs, (written_cache_read _ _ _ _ Pr Pp Hin).
  - intros Hge. assert (gate (localStorage w1) (atCheck c') = false) as Hg1.
    { rewrite Hgate. apply Z.ltb_ge. unfold CACHE_EXPIRATION. lia. }
    destruct (fetchData_network b' c' w1 Hg1) as (rest & Et).
    exists rest. unfold issued. by rewrite Et, drop_app_length.
Qed.

Lemma handleRefresh_online (w : World) :
  handleRefresh true w = (with_storage (clearCache (localStorage w)) w, Ok true).
Proof. by destruct w. Qed.

(** X13: the refresh button. Online it removes the three cache items and
    nothing else and asks for a reload, after which the refresh goes to the
    network whatever the clock says. Offline it touches neither the storage
    nor the network and shows the cached rides, however old, when there are
    any. *)
Theorem refresh_button (w : World) :
  (exists w1,
      handleRefresh true w = (w1, Ok true) /\
      localStorage w1 !! LAST_FETCH = None /\
      localStorage w1 !! RIDES = None /\
      localStorage w1 !! PROFILE = None /\
      (forall k, k <> LAST_FETCH -> k <> RIDES -> k <> PROFILE ->
                 localStorage w1 !! k = localStorage w !! k) /\
      trace w1 = trace w /\
      forall b c, exists rest,
        trace (fst (fetchData b c (reload w1))) = trace w ++ Query QProfile :: rest) /\
  (exists w1,
      handleRefresh false w = (w1, Ok false) /\
      localStorage w1 = localStorage w /\ trace w1 = trace w /\
      rides_state w1 = if truthy (rides (getCachedData (localStorage w)))
                       then rides (getCachedData (localStorage w))
                       else rides_state w).
Proof.
  destruct keys_distinct as (Hrp & Hrl & Hpl). split.
  - rewrite handleRefresh_online. eexists. split; [reflexivity |].
    simpl. unfold clearCache. split_and!.
    + rewrite !lookup_delete_ne by done. apply lookup_delete_eq.
    + rewrite lookup_delete_ne by done. apply lookup_delete_eq.
    + apply lookup_delete_eq.
    + intros k H1 H2 H3. by rewrite !lookup_delete_ne.
    + done.
    + intros b c. apply (fetchData_network b c
        (reload (with_storage (clearCache (localStorage w)) w))).
      unfold gate, isCacheValid, clearCache. simpl.
      rewrite !lookup_delete_ne by done. by rewrite lookup_delete_eq.
  - unfold handleRefresh, mbind, Eff_bind, read, setRides, modify, mret, Eff_ret. simpl.
    destruct (truthy (rides (getCachedData (localStorage w)))); simpl;
      eexists; split_and!; reflexivity.
Qed.

End RefreshProperties.

(** ** The match, continued *)

Section MoreMatchProperties.
Context `{Host}.

Lemma strict_eq_sym (a b : option Z) : strict_eq a b = strict_eq b a.
Proof. destruct a, b; simpl; try done. apply Z.eqb_sym. Qed.

Lemma isSameDay_sym (a b : value) : isSameDay a b = isSameDay b a.
Proof.
  unfold isSameDay.
  by rewrite (strict_eq_sym (getFullYear _)), (strict_eq_sym (getMonth _)),
    (strict_eq_sym (getDate _)).
Qed.

Lemma isTimeWithinRange_sym (a b : value) (r : Z) :
  isTimeWithinRange a b r = isTimeWithinRange b a r.
Proof.
  unfold isTimeWithinRange. destruct (newDate a) as [x|], (newDate b) as [y|]; try done.
  replace (y - x) with (- (x - y)) by lia. by rewrite Z.abs_opp.
Qed.

(** X14: the test for a pair of rides does not depend on whose ride is
    whose: the callback gives the same result, or throws alike, with the two
    rides exchanged. If a user sees a candidate because of one of their rides,
    the candidate's owner would see that ride. *)
Theorem matchCallback_sym (a b : Ride) : matchCallback a b = matchCallback b a.
Proof.
  unfold matchCallback.
  rewrite (isSameDay_sym (time b)), (isTimeWithinRange_sym (time b)).
  destruct (from a) as [| |fa], (from b) as [| |fb]; simpl; try done.
  rewrite (String.eqb_sym (toLowerCase fb)).
  destruct (String.eqb (toLowerCase fa) (toLowerCase fb)); simpl; [| done].
  destruct (to a) as [| |ta], (to b) as [| |tb]; simpl; try done.
  by rewrite (String.eqb_sym (toLowerCase tb)).
Qed.

(** X15: [isSameDay] holds exactly when both times are valid and fall in the
    same local day, counted in whole days of local time since the epoch; so
    two rides on either side of a local midnight are never matched, however
    close their times. *)
Theorem isSameDay_local_day :
  (forall a b : value,
      isSameDay a b = true <->
      exists t1 t2, newDate a = Some t1 /\ newDate b = Some t2 /\
                    Day (LocalTime t1) = Day (LocalTime t2)) /\
  (forall (m c : Ride) (t1 t2 : Z),
      newDate (time m) = Some t1 -> newDate (time c) = Some t2 ->
      Day (LocalTime t1) <> Day (LocalTime t2) ->
      matchCallback c m <> Ok true).
Proof.
  assert (forall a b : value,
             isSameDay a b = true <->
             exists t1 t2, newDate a = Some t1 /\ newDate b = Some t2 /\
                           Day (LocalTime t1) = Day (LocalTime t2)) as Hday.
  { intros a b. rewrite isSameDay_spec. split.
    - intros (t1 & t2 & E1 & E2 & Hd). exists t1, t2.
      split_and!; try done. by apply sameCalendarDay_Day.
    - intros (t1 & t2 & E1 & E2 & Hd). exists t1, t2.
      split_and!; try done. by apply sameCalendarDay_Day. }
  split; [exact Hday |].
  intros m c t1 t2 E1 E2 Hne Hm.
  apply matchCallback_true in Hm as [Hd _].
  apply Hday in Hd as (x & y & Ex & Ey & Hd). congruence.
Qed.

End MoreMatchProperties.

(** ** The contact link and the routes *)

Lemma stripNonDigits_digits (s : string) : all_digits (stripNonDigits s) = true.
Proof.
  induction s as [|c s IH]; simpl; [done |].
  destruct (isDigit c) eqn:E; simpl; [by rewrite E | done].
Qed.

Lemma stripNonDigits_fixed (s : string) : all_digits s = true -> stripNonDigits s = s.
Proof.
  induction s as [|c s IH]; simpl; [done |].
  intros Hd. apply andb_true_iff in Hd as [Hc Hs]. rewrite Hc. f_equal. auto.
Qed.

Lemma stripNonDigits_app (a b : string) :
  stripNonDigits (a ++ b)%string = (stripNonDigits a ++ stripNonDigits b)%string.
Proof.
  induction a as [|c a IH]; simpl; [done |].
  destruct (isDigit c); simpl; by rewrite IH.
Qed.

Lemma stripNonDigits_filter (s : string) :
  list_ascii_of_string (stripNonDigits s) = List.filter isDigit (list_ascii_of_string s).
Proof.
  induction s as [|c s IH]; simpl; [done |].
  destruct (isDigit c); simpl; by rewrite IH.
Qed.

(** X16: the WhatsApp address of a card. For a card whose profile has a
    string as number it is https://wa.me/ followed by exactly the digits of
    that number, in order, every other character dropped; for a card without
    profile or number it ends in the text undefined; a null card and a number
    that is neither a string nor missing throw a TypeError. Stripping is
    idempotent and leaves a string of digits as it is. *)
Theorem whatsappHref_digits :
  (forall ride s,
      ride <> JNull ->
      get_prop "whatsapp" (get_prop "profiles" ride) = JString s ->
      whatsappHref ride = Ok ("https://wa.me/" ++ stripNonDigits s)%string) /\
  (forall ride,
      ride <> JNull ->
      get_prop "whatsapp" (get_prop "profiles" ride) = JNull ->
      whatsappHref ride = Ok "https://wa.me/undefined") /\
  (forall ride,
      ride = JNull \/
      (get_prop "whatsapp" (get_prop "profiles" ride) <> JNull /\
       forall s, get_prop "whatsapp" (get_prop "profiles" ride) <> JString s) ->
      whatsappHref ride = Throw TypeError) /\
  (forall s, list_ascii_of_string (stripNonDigits s)
             = List.filter isDigit (list_ascii_of_string s)) /\
  (forall s, all_digits (stripNonDigits s) = true) /\
  (forall s, stripNonDigits (stripNonDigits s) = stripNonDigits s) /\
  (forall s, all_digits s = true -> stripNonDigits s = s) /\
  (forall a b, stripNonDigits (a ++ b)%string
               = (stripNonDigits a ++ stripNonDigits b)%string).
Proof.
  assert (forall ride, ride <> JNull ->
            whatsappHref ride =
            match get_prop "whatsapp" (get_prop "profiles" ride) with
            | JNull => Ok "https://wa.me/undefined"
            | JString s => Ok ("https://wa.me/" ++ stripNonDigits s)%string
            | _ => Throw TypeError
            end) as Hdef.
  { intros ride Hr. unfold whatsappHref.
    destruct ride as [| | | | |fields]; try done.
    destruct (get_prop "profiles" (JObject fields)); try done. }
  split_and!.
  - intros ride s Hr Hw. by rewrite (Hdef ride Hr), Hw.
  - intros ride Hr Hw. by rewrite (Hdef ride Hr), Hw.
  - intros ride [-> | [Hn Hs]]; [done |].
    destruct ride as [| | | | |fields] eqn:Hride; [done | ..];
      rewrite Hdef by done;
      (destruct (get_prop "whatsapp" (get_prop "profiles" _)) as [| | |s0| |]; try done;
       by destruct (Hs s0)).
  - apply stripNonDigits_filter.
  - apply stripNonDigits_digits.
  - intros s. apply stripNonDigits_fixed, stripNonDigits_digits.
  - apply stripNonDigits_fixed.
  - apply stripNonDigits_app.
Qed.

(** X17: the route table settles every location after at most two redirects.
    A visitor who is not signed in always ends on the sign-in form, and the
    ride list, like every other page but the form, is only ever shown to a
    signed-in user, who in turn never ends on the form; unknown locations and
    the root lead a signed-in user to the ride list. *)
Theorem routes_settle (user : bool) (r : Route) :
  exists p,
    settle 2 user r = Some p /\
    (user = false <-> p = AuthForm) /\
    (r = RRoot \/ r = RAny \/ r = RLogin \/ r = RFind -> user = true -> p = RideList).
Proof.
  destruct user, r; simpl; eexists; (split; [reflexivity |]);
    (split; [split; discriminate || reflexivity |]);
    try (intros _ _; reflexivity); intros [? | [? | [? | ?]]]; discriminate.
Qed.

(** ** The further properties on the example data *)

Section MoreExamples.
Import TestHost Ex.
Existing Instance utc.

Lemma install_ok : fst (fst (onInstall net_ok upgraded)) = Ok tt.
Proof. vm_compute. reflexivity. Defined.

Lemma install_stores_assets_witness :
  exists w',
    onInstall net_ok upgraded = (Ok tt, w', [SkipWaiting]) /\
    streams w' = streams upgraded /\
    (forall p, p ∈ STATIC_ASSETS ->
               exists st body,
                 net_ok (origin ++ p)%string = Some (st, body) /\
                 addAll_accepts st = true /\
                 entry CACHE_NAME (origin ++ p)%string w' = Some (mkStored st body)) /\
    (forall n u,
        n <> CACHE_NAME \/ u ∉ map (fun p => origin ++ p)%string STATIC_ASSETS ->
        entry n u w' = entry n u upgraded).
Proof.
  destruct (install_stores_assets net_ok upgraded) as [_ Hstored].
  exact (Hstored install_ok).
Defined.

(** With caches that take nothing more the install rejects although every
    asset is fetched, and stores nothing. *)
Example install_refused_example :
  fst (onInstall (H := full) net_ok upgraded)
  = (Throw QuotaExceededError, caches_open CACHE_NAME upgraded).
Proof. vm_compute. reflexivity. Qed.

Lemma install_all_or_nothing_witness :
  exists w',
    onInstall net_missing_logo upgraded = (Throw TypeError, w', []) /\
    streams w' = streams upgraded /\
    forall n u, entry n u w' = entry n u upgraded.
Proof.
  apply (install_all_or_nothing net_missing_logo upgraded).
  apply Exists_exists. exists "/logo512.png". split.
  - do 5 right. left.
  - intros st body. vm_compute. intros [= <- _]. reflexivity.
Defined.

(** Before activation the copy of the previous version answers for the
    script, even after the new one has been fetched and stored; after
    activation the new one does. *)
Example shadowed_until_activated :
  delivered (onFetch asset_request None
               (snd (onFetch asset_request (Some (200, "new js")) upgraded)))
  = Some (200, "old js") /\
  delivered (onFetch asset_request None
               (snd (onFetch asset_request (Some (200, "new js"))
                       (fst (onActivate upgraded)))))
  = Some (200, "new js") /\
  snd (onActivate upgraded) = [CachesDelete "ride-partner-v1"; ClientsClaim].
Proof. split_and!; vm_compute; reflexivity. Qed.

Lemma onFetch_stores_only_good_GET_witness :
  CACHE_NAME = CACHE_NAME /\ url asset_request = url asset_request /\
  method asset_request = "GET" /\
  startsWith (url asset_request) origin = true /\
  includes (url asset_request) "/api/" = false /\
  exists body, Some (200, "js") = Some (200, body).
Proof.
  apply (onFetch_stores_only_good_GET asset_request (Some (200, "js")) installed
           CACHE_NAME (url asset_request)).
  vm_compute. discriminate.
Defined.

Lemma answered_then_offline_witness :
  delivered (onFetch asset_request None
               (snd (onFetch asset_request (Some (200, "js")) installed)))
  = Some (200, "js") /\
  delivered (onFetch asset_request None
               (snd (onFetch asset_request (Some (200, "js"))
                       (fst (onActivate installed)))))
  = Some (200, "js").
Proof.
  assert (startsWith (url asset_request) origin = true) as Ho by (vm_compute; reflexivity).
  assert (includes (url asset_request) "/api/" = false) as Ha by (vm_compute; reflexivity).
  destruct (answered_then_offline asset_request "js" installed Ho Ha eq_refl)
    as (Hplain & Hactivated & _).
  split.
  - apply Hplain; [vm_compute; reflexivity |].
    unfold unshadowed. simpl. constructor; [by left | constructor].
  - apply Hactivated. vm_compute. reflexivity.
Defined.

Lemma unstored_answer_keeps_copy_witness :
  delivered (onFetch asset_request None
               (snd (onFetch asset_request (Some (503, "down"))
                       (snd (onFetch asset_request (Some (200, "js")) installed)))))
  = delivered (onFetch asset_request None
                 (snd (onFetch asset_request (Some (200, "js")) installed))).
Proof.
  apply (unstored_answer_keeps_copy asset_request asset_request 503 "down");
    try (vm_compute; reflexivity).
  right. discriminate.
Defined.

Lemma offline_navigation_witness :
  let w2 := fst (onActivate (snd (fst (onInstall net_ok upgraded)))) in
  exists e,
    delivered (onFetch page_request None w2) = Some (answer e) /\
    (stored_match page_request w2 = Some e \/
     stored_match page_request w2 = None /\
     exists st body, net_ok (origin ++ "/index.html")%string = Some (st, body) /\
                     e = mkStored st body).
Proof.
  apply (offline_navigation net_ok upgraded page_request install_ok);
    vm_compute; reflexivity.
Defined.

(** The page a failed navigation gets after install and activation. *)
Example offline_navigation_example :
  delivered (onFetch page_request None
               (fst (onActivate (snd (fst (onInstall net_ok upgraded))))))
  = Some (200, "asset https://rides.example/index.html").
Proof. vm_compute. reflexivity. Qed.

Lemma cache_written_only_after_fetch_witness :
  gate (localStorage fresh) (atCheck (clock_at T0)) = false /\
  exists p matched, fetches (backend [mine] candidates) p matched.
Proof.
  apply (cache_written_only_after_fetch (backend [mine] candidates) (clock_at T0) fresh).
  left. intros E.
  apply (f_equal (fun st : gmap string string => st !! CACHE_KEYS.LAST_FETCH)) in E.
  vm_compute in E. discriminate.
Defined.

(** The query for the user's own rides fails: the refresh shows no ride and
    caches the empty list with a fresh time stamp. *)
Example own_rides_fail_example :
  trace (fst (fetchData own_rides_fail (clock_at T0) fresh))
  = [Query QProfile; Query QMyRides; Query QRides;
     SetItem CACHE_KEYS.RIDES "[]";
     SetItem CACHE_KEYS.PROFILE (stringify a_profile);
     SetItem CACHE_KEYS.LAST_FETCH "1714557600000"] /\
  rides_state (fst (fetchData own_rides_fail (clock_at T0) fresh)) = JArray [].
Proof. split; vm_compute; reflexivity. Qed.

Lemma missing_own_rides_show_nothing_witness :
  rides_state (fst (fetchData own_rides_fail (clock_at T0) fresh)) = JArray [] /\
  issued (fetchData own_rides_fail (clock_at T0)) fresh
  = [Query QProfile; Query QMyRides; Query QRides]
    ++ issued (setCacheData (JArray []) a_profile (atWrite (clock_at T0))) (queried fresh).
Proof.
  apply (missing_own_rides_show_nothing own_rides_fail (clock_at T0) fresh
           (mkReply a_profile false) (mkReply None true)
           (mkReply (Some candidates) false));
    try (vm_compute; reflexivity).
  by left.
Defined.

Lemma a_fetch : fetches (backend [mine] candidates) a_profile [at_30min; before_15min].
Proof.
  exists (mkReply a_profile false), (mkReply (Some [mine]) false),
    (mkReply (Some candidates) false).
  split_and!; vm_compute; reflexivity.
Defined.

Lemma refresh_then_cached_witness :
  let w1 := fst (fetchData (backend [mine] candidates) (clock_at T0) fresh) in
  issued (fetchData own_rides_fail (clock_at (T0 + minutes 1))) w1 = [] /\
  rides_state (fst (fetchData own_rides_fail (clock_at (T0 + minutes 1)) w1))
  = rides_state w1 /\
  localStorage (fst (fetchData own_rides_fail (clock_at (T0 + minutes 1)) w1))
  = localStorage w1.
Proof.
  assert (SetItem CACHE_KEYS.LAST_FETCH (NumberToString (atWrite (clock_at T0)))
          ∈ issued (setCacheData
                      (rides_to_json (sortedRides (atSort (clock_at T0))
                                        [at_30min; before_15min]))
                      a_profile (atWrite (clock_at T0))) (queried fresh)) as Hin.
  { assert (issued (setCacheData
                      (rides_to_json (sortedRides (atSort (clock_at T0))
                                        [at_30min; before_15min]))
                      a_profile (atWrite (clock_at T0))) (queried fresh)
            = [SetItem CACHE_KEYS.RIDES (stringify (rides_to_json [before_15min; at_30min]));
               SetItem CACHE_KEYS.PROFILE (stringify a_profile);
               SetItem CACHE_KEYS.LAST_FETCH (NumberToString (atWrite (clock_at T0)))])
      as -> by (vm_compute; reflexivity).
    do 2 right. left. }
  destruct (refresh_then_cached (backend [mine] candidates) own_rides_fail
              (clock_at T0) (clock_at (T0 + minutes 1)) fresh a_profile
              [at_30min; before_15min]) as [Hserved _].
  - vm_compute. reflexivity.
  - exact a_fetch.
  - exact Hin.
  - vm_compute. discriminate.
  - vm_compute. reflexivity.
  - vm_compute. reflexivity.
  - vm_compute. reflexivity.
  - apply Hserved. vm_compute. reflexivity.
Defined.

(** Ten minutes before and after midnight in Greenwich do not match on a host
    in UTC and do match on a host six hours east, where both fall in the
    morning of 2 May. *)
Example midnight_example :
  matchRides (H := host 0 1000) [late 1] [early 2] (steady T0) = Ok [] /\
  matchRides (H := host (6 * 3600 * 1000) 1000) [late 1] [early 2] (steady T0)
  = Ok [early 2].
Proof. split; vm_compute; reflexivity. Qed.

Lemma whatsappHref_digits_witness :
  whatsappHref a_card = Ok "https://wa.me/8801712345678" /\
  whatsappHref (JObject [("id", JNumber 3)]) = Ok "https://wa.me/undefined" /\
  whatsappHref (JObject [("profiles", JObject [("whatsapp", JNumber 880)])])
  = Throw TypeError.
Proof.
  destruct whatsappHref_digits as (Hs & Hn & Ht & _).
  split_and!.
  - apply (Hs a_card "+880 17-1234 5678"); [discriminate | vm_compute; reflexivity].
  - apply (Hn (JObject [("id", JNumber 3)])); [discriminate | vm_compute; reflexivity].
  - apply (Ht (JObject [("profiles", JObject [("whatsapp", JNumber 880)])])).
    right. split; [vm_compute; discriminate | intros s; vm_compute; discriminate].
Defined.

Lemma installed_assets_offline_witness :
  delivered (onFetch asset_request None
               (fst (onActivate (snd (fst (onInstall net_ok upgraded))))))
  = Some (200, "asset https://rides.example/static/js/main.bundle.js").
Proof.
  apply (installed_assets_offline net_ok upgraded asset_request
           "/static/js/main.bundle.js" 200
           "asset https://rides.example/static/js/main.bundle.js" install_ok);
    try (vm_compute; reflexivity).
  do 6 right. left.
Defined.

End MoreExamples.
